(** * Host scanner of the host database: scheduling policy, scan executor
      and dispatcher, embedded from [hostdb.go] and the scanner source. *)

From Stdlib Require Import ZArith String Ascii List Lia Bool.
From stdpp Require Import gmap strings list sorting.

Local Open Scope Z_scope.

(** ** Go's [time] package, as far as the scanner uses it *)

Module GoTime.

(** [time.Duration] is an [int64] count of nanoseconds. *)
Definition Duration := Z.

Definition minDuration : Duration := - 2 ^ 63.
Definition maxDuration : Duration := 2 ^ 63 - 1.

Definition Nanosecond : Duration := 1.
Definition Microsecond : Duration := 1000 * Nanosecond.
Definition Millisecond : Duration := 1000 * Microsecond.
Definition Second : Duration := 1000 * Millisecond.
Definition Minute : Duration := 60 * Second.
Definition Hour : Duration := 60 * Minute.

(** Two's-complement wrap-around of [int64] arithmetic. *)
Definition wrap64 (z : Z) : Z := (z + 2 ^ 63) mod 2 ^ 64 - 2 ^ 63.

Definition in_int64 (z : Z) : Prop := - 2 ^ 63 <= z < 2 ^ 63.

(** [time.Time] is an instant; here the count of nanoseconds since the zero
    instant (January 1, year 1, 00:00 UTC), not bounded. *)
Definition Time := Z.

Definition zeroTime : Time := 0.

(** [t.IsZero()] *)
Definition IsZero (t : Time) : bool := t =? zeroTime.

(** [t.Sub(u)]: the difference, saturated to the range of [Duration]. *)
Definition Sub (t u : Time) : Duration :=
  let d := t - u in
  if d <? minDuration then minDuration
  else if maxDuration <? d then maxDuration
  else d.

(** [time.Since(t)] is [time.Now().Sub(t)]; the clock reading [now] is an
    argument. *)
Definition Since (now t : Time) : Duration := Sub now t.

End GoTime.

Import GoTime.

(** ** Constants of the scanner *)

Definition scanInterval : Duration := 30 * Minute.
Definition scanCheckInterval : Duration := 15 * Second.
Definition maxScanThreads : Z := 100.
Definition minScans : Z := 25.

Ltac unfold_durations :=
  unfold scanInterval, maxScanThreads, minScans, Hour, Minute, Second,
    Millisecond, Microsecond, Nanosecond, maxDuration, minDuration,
    zeroTime in *.

(** [error]: [nil], or a value whose [Error()] is the text. *)
Definition error := option string.

(** [strings.Contains(s, substr)] *)
Fixpoint strings_Contains (s substr : string) : bool :=
  String.prefix substr s ||
  match s with
  | EmptyString => false
  | String _ s' => strings_Contains s' substr
  end.

(** [types.PublicKey] is 32 bytes; a 256-bit number here. *)
Definition PublicKey := Z.

Section Scanner.

Set Default Proof Using "Type".

(** Types of the protocol library ([rhpv2.HostSettings],
    [rhpv3.HostPriceTable]) and [float64]; the zero value of a price table
    and the [SiamuxAddr] method of the settings. *)
Context {HostSettings HostPriceTable float64 : Type}.
Variable zeroPriceTable : HostPriceTable.
Variable SiamuxAddr : HostSettings -> string.

Record HostInteractions := mkHostInteractions {
  HistoricSuccesses : float64;
  HistoricFailures : float64;
  RecentSuccesses : float64;
  RecentFailures : float64;
  LastUpdate : Z
}.

Record HostScan := mkHostScan {
  Timestamp : Time;
  Success : bool;
  Latency : Duration;
  Error : string;
  Settings : HostSettings;
  PriceTable : HostPriceTable
}.

Record HostBenchmark := mkHostBenchmark {
  bTimestamp : Time;
  bSuccess : bool;
  bError : string;
  UploadSpeed : float64;
  DownloadSpeed : float64;
  TTFB : Duration
}.

(** [HostDBEntry]; the contract revision field, which the scanner never
    touches, is left out. *)
Record HostDBEntry := mkHostDBEntry {
  ID : Z;
  hPublicKey : PublicKey;
  FirstSeen : Time;
  KnownSince : Z;
  NetAddress : string;
  Blocked : bool;
  Uptime : Duration;
  Downtime : Duration;
  ScanHistory : list HostScan;
  LastBenchmark : HostBenchmark;
  Interactions : HostInteractions;
  LastSeen : Time;
  IPNets : list string;
  LastIPChange : Time;
  hSettings : HostSettings;
  hPriceTable : HostPriceTable
}.

(** ** Interval policy *)

(** [calculateScanInterval]: the clock is read once, as [now]. *)
Definition calculateScanInterval (now : Time) (host : HostDBEntry) : Duration :=
  if IsZero (LastSeen host) then scanInterval
  else if Since now (LastSeen host) >? 28 * 24 * Hour then scanInterval * 48
  else if Since now (LastSeen host) >? 14 * 24 * Hour then scanInterval * 24
  else if Since now (LastSeen host) >? 7 * 24 * Hour then scanInterval * 12
  else if Since now (LastSeen host) >? 3 * 24 * Hour then scanInterval * 8
  else if Since now (LastSeen host) >? 2 * 24 * Hour then scanInterval * 4
  else if Since now (LastSeen host) >? 24 * Hour then scanInterval * 2
  else scanInterval.

(** The table of the specification, on the time [d] elapsed since the host
    was last seen ([None] when it never was). *)
Definition interval_table (d : option Z) : Duration :=
  match d with
  | None => 30 * Minute
  | Some d =>
      if d <=? 24 * Hour then 30 * Minute
      else if d <=? 2 * 24 * Hour then 1 * Hour
      else if d <=? 3 * 24 * Hour then 2 * Hour
      else if d <=? 7 * 24 * Hour then 4 * Hour
      else if d <=? 14 * 24 * Hour then 6 * Hour
      else if d <=? 28 * 24 * Hour then 12 * Hour
      else 24 * Hour
  end.

(** Time elapsed since the host was last seen, not saturated. *)
Definition sinceLastSeen (now : Time) (host : HostDBEntry) : option Z :=
  if IsZero (LastSeen host) then None else Some (now - LastSeen host).

(** ** The host database's scanner state

    [HostDB] without its collaborators (syncer, chain manager, store, wallet,
    logger) and without [tg] and [mu], which the dispatcher model below
    carries. *)
Record HostDB := mkHostDB {
  benchmarking : bool;
  initialScanLatencies : list Duration;
  scanList : list HostDBEntry;
  benchmarkList : list HostDBEntry;
  scanMap : gmap PublicKey bool;
  scanThreads : Z
}.

(** [NewHostDB]: every field at its zero value, [scanMap] an empty map. *)
Definition NewHostDB : HostDB := mkHostDB false [] [] [] ∅ 0.

(** ** [queueScan] *)

(** The routing decision on line 32. *)
Definition toBenchmark (now : Time) (host : HostDBEntry) : bool :=
  let h := ScanHistory host in
  (0 <? Z.of_nat (length h)) &&
  match h !! (length h - 1)%nat with
  | Some s => Since now (Timestamp s) <? calculateScanInterval now host
  | None => false
  end.

(** [queueScan]: one critical section of [hdb.mu]. *)
Definition queueScan (now : Time) (host : HostDBEntry) (hdb : HostDB) : HostDB :=
  match scanMap hdb !! hPublicKey host with
  | Some _ => hdb
  | None =>
      let tb := toBenchmark now host in
      let m := <[hPublicKey host := tb]> (scanMap hdb) in
      if tb then
        mkHostDB (benchmarking hdb) (initialScanLatencies hdb) (scanList hdb)
          (benchmarkList hdb ++ [host]) m (scanThreads hdb)
      else
        mkHostDB (benchmarking hdb) (initialScanLatencies hdb)
          (scanList hdb ++ [host]) (benchmarkList hdb) m (scanThreads hdb)
  end.

(** ** [scanHost] *)

(** Functions of the repository that the scanner calls and that are defined
    in other files of the package. *)
Variable EqualIPNets : list string -> list string -> bool.
Variable updateHostHistoricInteractions : HostDBEntry -> HostDBEntry.
Variable IncrementSuccessfulInteractions : HostDBEntry -> HostDBEntry.
Variable IncrementFailedInteractions : HostDBEntry -> HostDBEntry.
Variable updateScanHistory : HostDBEntry -> HostScan -> HostDBEntry * error.

(** What the outside world answers during one scan. The transports get the
    context's time limit, the address and the key; each returns what was
    assigned to the captured variable and the error. *)
Record ScanEnv := mkScanEnv {
  LookupIPNets : string -> list string * error;
  now_ipchange : Time;
  now_start : Time;
  WithTransportV2 : Duration -> string -> PublicKey -> HostSettings * error;
  since_start : Duration;
  WithTransportV3 : Duration -> string -> PublicKey -> HostPriceTable * error
}.

(** Calls observable from outside the scan, in program order. *)
Inductive Call :=
| LogError (msg : string)
| LogDebug (msg : string)
| CallUpdateHostHistoricInteractions (pk : PublicKey)
| CallWithTransportV2 (limit : Duration) (addr : string) (pk : PublicKey)
| CallWithTransportV3 (limit : Duration) (addr : string) (pk : PublicKey)
| CallIncrementSuccessfulInteractions (pk : PublicKey)
| CallIncrementFailedInteractions (pk : PublicKey)
| CallUpdateScanHistory (pk : PublicKey) (scan : HostScan).

(** Lines 48-55: address resolution. *)
Definition resolveIPNets (env : ScanEnv) (host : HostDBEntry)
  : HostDBEntry * list Call :=
  let '(ipNets, err) := LookupIPNets env (NetAddress host) in
  let host1 :=
    match err with
    | None =>
        if negb (EqualIPNets ipNets (IPNets host)) then
          mkHostDBEntry (ID host) (hPublicKey host) (FirstSeen host)
            (KnownSince host) (NetAddress host) (Blocked host) (Uptime host)
            (Downtime host) (ScanHistory host) (LastBenchmark host)
            (Interactions host) (LastSeen host) ipNets (now_ipchange env)
            (hSettings host) (hPriceTable host)
        else host
    | Some _ => host
    end in
  let calls :=
    match err with
    | None => []
    | Some e => [LogError ("failed to look up IP nets: " ++ e)]
    end in
  (host1, calls).

(** Lines 69-81: the time limit of one scan. *)
Definition scanTimeout (latencies : list Duration) : Duration :=
  let timeout := 2 * Minute in
  if Z.of_nat (length latencies) =? minScans then
    let timeout := nth (length latencies / 2)%nat latencies 0 in
    let timeout := wrap64 (timeout * 5) in
    if timeout >? 2 * Minute then 2 * Minute else timeout
  else timeout.

(** The values the closure on lines 68-117 leaves behind. *)
Record Attempt := mkAttempt {
  at_start : Time;
  at_settings : HostSettings;
  at_pt : HostPriceTable;
  at_latency : Duration;
  at_success : bool;
  at_err : error;
  at_calls : list Call
}.

(** Lines 68-117: the protocol attempt. *)
Definition protocolAttempt (env : ScanEnv) (latencies : list Duration)
    (host : HostDBEntry) : Attempt :=
  let timeout := scanTimeout latencies in
  let logs :=
    if minScans <? Z.of_nat (length latencies)
    then [LogError "initialScanLatencies should never be greater than 25"]
    else [] in
  let limit := wrap64 (timeout + 4 * Minute) in
  let start := now_start env in
  let '(settings, err) :=
    WithTransportV2 env limit (NetAddress host) (hPublicKey host) in
  let c2 := CallWithTransportV2 limit (NetAddress host) (hPublicKey host) in
  let latency := since_start env in
  match err with
  | None =>
      let '(pt, err3) :=
        WithTransportV3 env limit (SiamuxAddr settings) (hPublicKey host) in
      let c3 := CallWithTransportV3 limit (SiamuxAddr settings) (hPublicKey host) in
      mkAttempt start settings pt latency true err3 (logs ++ [c2; c3])
  | Some _ =>
      mkAttempt start settings zeroPriceTable latency false err (logs ++ [c2])
  end.

(** Line 118: [err != nil && strings.Contains(err.Error(), "canceled")]. *)
Definition isCanceled (err : error) : bool :=
  match err with
  | Some e => strings_Contains e "canceled"
  | None => false
  end.

(** What lines 44-143 leave for the rest of [scanHost]: nothing when the
    function has returned on line 120. *)
Record Scanned := mkScanned {
  sc_host : HostDBEntry;
  sc_calls : list Call;
  sc_result : option (bool * Duration)
}.

(** Lines 44-143. *)
Definition scanHost_record (env : ScanEnv) (latencies : list Duration)
    (host : HostDBEntry) : Scanned :=
  let '(host1, calls1) := resolveIPNets env host in
  let host2 := updateHostHistoricInteractions host1 in
  let calls2 := calls1 ++ [CallUpdateHostHistoricInteractions (hPublicKey host1)] in
  let a := protocolAttempt env latencies host2 in
  let calls3 := calls2 ++ at_calls a in
  if isCanceled (at_err a) then mkScanned host2 calls3 None
  else
    let '(host3, errMsg, calls4) :=
      match at_err a with
      | None =>
          (IncrementSuccessfulInteractions host2, EmptyString,
           calls3 ++ [CallIncrementSuccessfulInteractions (hPublicKey host2)])
      | Some e =>
          (IncrementFailedInteractions host2, e,
           calls3 ++ [CallIncrementFailedInteractions (hPublicKey host2);
                      LogDebug ("scan of " ++ NetAddress host2 ++ " failed: " ++ e)])
      end in
    let scan := mkHostScan (at_start a) (at_success a) (at_latency a) errMsg
                  (at_settings a) (at_pt a) in
    let '(host4, serr) := updateScanHistory host3 scan in
    let calls5 := calls4 ++ [CallUpdateScanHistory (hPublicKey host3) scan] in
    let calls6 :=
      match serr with
      | None => calls5
      | Some e => calls5 ++ [LogError ("couldn't update scan history: " ++ e)]
      end in
    mkScanned host4 calls6 (Some (at_success a, at_latency a)).

Definition set_initialScanLatencies (l : list Duration) (hdb : HostDB) : HostDB :=
  mkHostDB (benchmarking hdb) l (scanList hdb) (benchmarkList hdb)
    (scanMap hdb) (scanThreads hdb).

(** Line 146: the test that guards the append. *)
Definition feed_check (success : bool) (hdb : HostDB) : bool :=
  success && (Z.of_nat (length (initialScanLatencies hdb)) <? 25).

(** Line 147. *)
Definition feed_append (latency : Duration) (hdb : HostDB) : HostDB :=
  set_initialScanLatencies (initialScanLatencies hdb ++ [latency]) hdb.

(** [sort.Slice] with the less function of lines 150-152. *)
Definition sort_Slice (l : list Duration) : list Duration := merge_sort Z.le l.

(** Lines 149-153. *)
Definition feed_sort (hdb : HostDB) : HostDB :=
  if Z.of_nat (length (initialScanLatencies hdb)) =? 25
  then set_initialScanLatencies (sort_Slice (initialScanLatencies hdb)) hdb
  else hdb.

(** Lines 146-154, run without interruption. *)
Definition feedLatency (success : bool) (latency : Duration) (hdb : HostDB) : HostDB :=
  if feed_check success hdb then feed_sort (feed_append latency hdb) else hdb.

(** Lines 157-160. *)
Definition bookkeeping (pk : PublicKey) (hdb : HostDB) : HostDB :=
  mkHostDB (benchmarking hdb) (initialScanLatencies hdb) (scanList hdb)
    (benchmarkList hdb) (delete pk (scanMap hdb)) (wrap64 (scanThreads hdb - 1)).

(** [scanHost], run without interruption by other workers: the database
    and the host object after it, and the calls it made. *)
Definition scanHost (env : ScanEnv) (hdb : HostDB) (host : HostDBEntry)
  : HostDB * HostDBEntry * list Call :=
  let r := scanHost_record env (initialScanLatencies hdb) host in
  match sc_result r with
  | None => (hdb, sc_host r, sc_calls r)
  | Some (success, latency) =>
      let hdb1 := feedLatency success latency hdb in
      (bookkeeping (hPublicKey (sc_host r)) hdb1, sc_host r, sc_calls r)
  end.

(** ** The dispatcher and its workers

    The goroutines of [scanHosts] share [hdb], its mutex and the thread
    group. A scan goroutine is followed through the places where it can be
    interleaved with the others: lines 146-154 of [scanHost] run without
    [hdb.mu], so each statement there is a step of its own. Of the benchmark
    side (lines 207-226) only the goroutine is modelled, as [benchWorker];
    [benchmarkHost] is defined in another file of the package. *)

Inductive pc :=
| Launched
| Registered
| AtFeedCheck (success : bool) (latency : Duration)
| AtAppend (latency : Duration)
| AtSortCheck
| AtBookkeeping.

Record Worker := mkWorker {
  w_entry : HostDBEntry;
  w_pc : pc
}.

(** [sys_abandoned] is a history variable: the number of scan goroutines
    that have returned on line 194 or on line 120. *)
Record Sys := mkSys {
  sys_hdb : HostDB;
  sys_mu : bool;
  sys_stopped : bool;
  sys_dispatching : bool;
  sys_workers : list Worker;
  sys_abandoned : nat;
  sys_calls : list Call
}.

Definition sys_init : Sys := mkSys NewHostDB false false false [] 0 [].

Definition set_hdb (h : HostDB) (s : Sys) : Sys :=
  mkSys h (sys_mu s) (sys_stopped s) (sys_dispatching s) (sys_workers s)
    (sys_abandoned s) (sys_calls s).

Definition set_workers (ws : list Worker) (s : Sys) : Sys :=
  mkSys (sys_hdb s) (sys_mu s) (sys_stopped s) (sys_dispatching s) ws
    (sys_abandoned s) (sys_calls s).

Definition add_calls (cs : list Call) (s : Sys) : Sys :=
  mkSys (sys_hdb s) (sys_mu s) (sys_stopped s) (sys_dispatching s)
    (sys_workers s) (sys_abandoned s) (sys_calls s ++ cs).

(** A scan goroutine has returned without reaching line 157. *)
Definition abandon (i : nat) (s : Sys) : Sys :=
  mkSys (sys_hdb s) (sys_mu s) (sys_stopped s) (sys_dispatching s)
    (delete i (sys_workers s)) (S (sys_abandoned s)) (sys_calls s).

(** [hdb.mu.Unlock()]; unlocking a mutex that is not locked is a fatal error
    of the run-time system, [None] here. *)
Definition mu_Unlock (s : Sys) : option Sys :=
  if sys_mu s then
    Some (mkSys (sys_hdb s) false (sys_stopped s) (sys_dispatching s)
            (sys_workers s) (sys_abandoned s) (sys_calls s))
  else None.

(** [hdb.tg.Add()] *)
Definition tg_Add (s : Sys) : error :=
  if sys_stopped s then Some "ThreadGroup already stopped"%string else None.

(** What [benchmarkHost] does to the database. *)
Variable benchmarkHost : HostDBEntry -> HostDB -> HostDB.

(** The goroutine of lines 191-198, run without interruption; [addErr] is
    what [hdb.tg.Add()] returned. *)
Definition scanWorker (addErr : error) (env : ScanEnv) (entry : HostDBEntry)
    (s : Sys) : option Sys :=
  match addErr with
  | Some _ => mu_Unlock s
  | None =>
      let '(h, _, cs) := scanHost env (sys_hdb s) entry in
      Some (add_calls cs (set_hdb h s))
  end.

(** The goroutine of lines 213-220. *)
Definition benchWorker (addErr : error) (entry : HostDBEntry) (s : Sys)
  : option Sys :=
  match addErr with
  | Some _ => mu_Unlock s
  | None => Some (set_hdb (benchmarkHost entry (sys_hdb s)) s)
  end.

(** Lines 188-190: the dispatcher takes the head of the scan list. *)
Definition dispatch_take (rest : list HostDBEntry) (hdb : HostDB) : HostDB :=
  mkHostDB (benchmarking hdb) (initialScanLatencies hdb) rest
    (benchmarkList hdb) (scanMap hdb) (wrap64 (scanThreads hdb + 1)).

Inductive Label :=
| LQueueScan (now : Time) (host : HostDBEntry)
| LDispatch
| LDispatchUnlock
| LStop
| LRegister (i : nat)
| LAttempt (i : nat) (env : ScanEnv)
| LFeedCheck (i : nat)
| LFeedAppend (i : nat)
| LFeedSort (i : nat)
| LBookkeeping (i : nat).

Definition set_pc (i : nat) (w : Worker) (p : pc) (s : Sys) : Sys :=
  set_workers (<[i := mkWorker (w_entry w) p]> (sys_workers s)) s.

(** One step of one goroutine; [None] when the step cannot be taken in [s]
    (the goroutine is elsewhere, it waits for the mutex, or the run-time
    system has stopped the process). *)
Definition exec (l : Label) (s : Sys) : option Sys :=
  match l with
  | LQueueScan now host =>
      (* the store hands a host to queueScan *)
      if sys_mu s then None
      else Some (set_hdb (queueScan now host (sys_hdb s)) s)
  | LDispatch =>
      (* lines 185-202 *)
      if sys_mu s || sys_dispatching s then None
      else
        match scanList (sys_hdb s) with
        | [] => None
        | entry :: rest =>
            if scanThreads (sys_hdb s) <? maxScanThreads then
              Some (mkSys (dispatch_take rest (sys_hdb s)) true (sys_stopped s)
                      true (sys_workers s ++ [mkWorker entry Launched])
                      (sys_abandoned s) (sys_calls s))
            else Some s
        end
  | LDispatchUnlock =>
      (* line 203 *)
      if sys_dispatching s then
        if sys_mu s then
          Some (mkSys (sys_hdb s) false (sys_stopped s) false (sys_workers s)
                  (sys_abandoned s) (sys_calls s))
        else None
      else None
  | LStop =>
      Some (mkSys (sys_hdb s) (sys_mu s) true (sys_dispatching s)
              (sys_workers s) (sys_abandoned s) (sys_calls s))
  | LRegister i =>
      (* lines 192-196 *)
      match sys_workers s !! i with
      | Some w =>
          match w_pc w with
          | Launched =>
              match tg_Add s with
              | Some _ =>
                  match mu_Unlock s with
                  | Some s' => Some (abandon i s')
                  | None => None
                  end
              | None => Some (set_pc i w Registered s)
              end
          | _ => None
          end
      | None => None
      end
  | LAttempt i env =>
      (* lines 44-143 *)
      match sys_workers s !! i with
      | Some w =>
          match w_pc w with
          | Registered =>
              if sys_mu s then None
              else
                let r := scanHost_record env (initialScanLatencies (sys_hdb s))
                           (w_entry w) in
                let s1 := add_calls (sc_calls r) s in
                match sc_result r with
                | None => Some (abandon i s1)
                | Some (success, latency) =>
                    Some (set_pc i (mkWorker (sc_host r) Registered)
                            (AtFeedCheck success latency) s1)
                end
          | _ => None
          end
      | None => None
      end
  | LFeedCheck i =>
      (* line 146 *)
      match sys_workers s !! i with
      | Some w =>
          match w_pc w with
          | AtFeedCheck success latency =>
              Some (set_pc i w
                      (if feed_check success (sys_hdb s) then AtAppend latency
                       else AtBookkeeping) s)
          | _ => None
          end
      | None => None
      end
  | LFeedAppend i =>
      (* line 147 *)
      match sys_workers s !! i with
      | Some w =>
          match w_pc w with
          | AtAppend latency =>
              Some (set_pc i w AtSortCheck
                      (set_hdb (feed_append latency (sys_hdb s)) s))
          | _ => None
          end
      | None => None
      end
  | LFeedSort i =>
      (* lines 149-153 *)
      match sys_workers s !! i with
      | Some w =>
          match w_pc w with
          | AtSortCheck =>
              Some (set_pc i w AtBookkeeping (set_hdb (feed_sort (sys_hdb s)) s))
          | _ => None
          end
      | None => None
      end
  | LBookkeeping i =>
      (* lines 157-160 *)
      match sys_workers s !! i with
      | Some w =>
          match w_pc w with
          | AtBookkeeping =>
              if sys_mu s then None
              else
                Some (set_workers (delete i (sys_workers s))
                        (set_hdb (bookkeeping (hPublicKey (w_entry w)) (sys_hdb s)) s))
          | _ => None
          end
      | None => None
      end
  end.

(** A schedule, run from [s]. *)
Fixpoint run (ls : list Label) (s : Sys) : option Sys :=
  match ls with
  | [] => Some s
  | l :: ls' =>
      match exec l s with
      | Some s' => run ls' s'
      | None => None
      end
  end.


(** ** Observations on a scan *)

(** The protocol attempt as [scanHost] makes it: on the host as address
    resolution and the fold of historic interactions have left it. *)
Definition scanAttempt (env : ScanEnv) (latencies : list Duration)
    (host : HostDBEntry) : Attempt :=
  protocolAttempt env latencies
    (updateHostHistoricInteractions (fst (resolveIPNets env host))).

(** The calls of [scanHost] up to the end of the protocol attempt. *)
Definition calls_before (env : ScanEnv) (latencies : list Duration)
    (host : HostDBEntry) : list Call :=
  snd (resolveIPNets env host)
  ++ [CallUpdateHostHistoricInteractions (hPublicKey (fst (resolveIPNets env host)))]
  ++ at_calls (scanAttempt env latencies host).

(** The error the RHP-v2 transport returned in that attempt. *)
Definition rhp2_error (env : ScanEnv) (latencies : list Duration)
    (host : HostDBEntry) : error :=
  let host2 := updateHostHistoricInteractions (fst (resolveIPNets env host)) in
  snd (WithTransportV2 env (wrap64 (scanTimeout latencies + 4 * Minute))
         (NetAddress host2) (hPublicKey host2)).

(** The scan records handed to the store. *)
Definition written (cs : list Call) : list HostScan :=
  flat_map (fun c => match c with CallUpdateScanHistory _ sc => [sc] | _ => [] end) cs.

Definition is_incrementSuccess (c : Call) : bool :=
  match c with CallIncrementSuccessfulInteractions _ => true | _ => false end.

Definition is_incrementFailure (c : Call) : bool :=
  match c with CallIncrementFailedInteractions _ => true | _ => false end.

Definition count_calls (p : Call -> bool) (cs : list Call) : nat :=
  length (List.filter p cs).

(** The text of an error, empty for [nil]. *)
Definition error_text (err : error) : string :=
  match err with Some e => e | None => EmptyString end.

(** The median of the samples: the middle one in ascending order. *)
Definition median (l : list Duration) : Duration :=
  nth (length l / 2)%nat (sort_Slice l) 0.

(** What holds of the scan-thread counter in every state of the system. *)
Definition counter_inv (s : Sys) : Prop :=
  scanThreads (sys_hdb s)
    = Z.of_nat (length (sys_workers s)) + Z.of_nat (sys_abandoned s) /\
  scanThreads (sys_hdb s) <= maxScanThreads.

(** The samples of scenario S3: 10 ms, 20 ms, ..., 250 ms. *)
Definition S3_samples : list Duration :=
  map (fun k => Z.of_nat k * (10 * Millisecond)) (seq 1 25).

(** ** More of the scanner *)

(** The scans of [scanHost], one after the other, as far as the latency
    buffer goes: the success flag and the latency of each, fed in turn. *)
Definition feedAll (outs : list (bool * Duration)) (hdb : HostDB) : HostDB :=
  fold_left (fun h o => feedLatency (fst o) (snd o) h) outs hdb.

(** The latencies of the scans marked successful, in the order of arrival. *)
Definition successes (outs : list (bool * Duration)) : list Duration :=
  flat_map (fun o : bool * Duration => if fst o then [snd o] else []) outs.

(** What the tracker holds after the samples [l] have arrived: the first 25,
    sorted once there are 25. *)
Definition tracked (l : list Duration) : list Duration :=
  let t := take 25 l in
  if Z.of_nat (length t) =? 25 then sort_Slice t else t.

(** The loop of lines 185-205 run without interruption, [queue] being
    [hdb.scanList]: the database after it and the entries for which a
    goroutine was started, in that order. *)
Fixpoint drainScans (queue : list HostDBEntry) (hdb : HostDB)
  : HostDB * list HostDBEntry :=
  match queue with
  | [] => (hdb, [])
  | entry :: rest =>
      if scanThreads hdb <? maxScanThreads then
        let '(h, launched) := drainScans rest (dispatch_take rest hdb) in
        (h, entry :: launched)
      else (hdb, [])
  end.

Definition scanDrain (hdb : HostDB) : HostDB * list HostDBEntry :=
  drainScans (scanList hdb) hdb.

(** Lines 210-212: the dispatcher takes the head of the benchmark list. *)
Definition dispatch_bench (rest : list HostDBEntry) (hdb : HostDB) : HostDB :=
  mkHostDB true (initialScanLatencies hdb) (scanList hdb) rest
    (scanMap hdb) (scanThreads hdb).

(** The loop of lines 207-226 run without interruption. *)
Fixpoint drainBenchmarks (queue : list HostDBEntry) (hdb : HostDB)
  : HostDB * list HostDBEntry :=
  match queue with
  | [] => (hdb, [])
  | entry :: rest =>
      if negb (benchmarking hdb) then
        let '(h, launched) := drainBenchmarks rest (dispatch_bench rest hdb) in
        (h, entry :: launched)
      else (hdb, [])
  end.

Definition benchmarkDrain (hdb : HostDB) : HostDB * list HostDBEntry :=
  drainBenchmarks (benchmarkList hdb) hdb.

(** The function leaves the public key of a host as it is. *)
Definition keeps_key (f : HostDBEntry -> HostDBEntry) : Prop :=
  forall h, hPublicKey (f h) = hPublicKey h.

(** The keys of the hosts that are queued or being scanned. *)
Definition in_flight_keys (sl bl : list HostDBEntry) (ws : list Worker)
  : list PublicKey :=
  (hPublicKey <$> sl) ++ (hPublicKey <$> bl)
  ++ ((fun w => hPublicKey (w_entry w)) <$> ws).

(** No host is in flight twice, and the map knows each of them, with the
    list it went to. *)
Definition in_flight (sl bl : list HostDBEntry) (m : gmap PublicKey bool)
    (ws : list Worker) : Prop :=
  NoDup (in_flight_keys sl bl ws) /\
  (forall h : HostDBEntry, h ∈ sl -> m !! hPublicKey h = Some false) /\
  (forall h : HostDBEntry, h ∈ bl -> m !! hPublicKey h = Some true) /\
  (forall w : Worker, w ∈ ws -> m !! hPublicKey (w_entry w) = Some false).

Definition in_flight_inv (s : Sys) : Prop :=
  in_flight (scanList (sys_hdb s)) (benchmarkList (sys_hdb s))
    (scanMap (sys_hdb s)) (sys_workers s).

(** As long as the thread group is not stopped, the mutex is locked for as
    long as the dispatcher is in its critical section (lines 186-203). *)
Definition mutex_inv (s : Sys) : Prop :=
  sys_stopped s = false -> sys_dispatching s = true -> sys_mu s = true.

(** The steps of scan goroutine [i] from its start to its return, taken one
    after the other with nothing in between. *)
Fixpoint run_worker (fuel : nat) (i : nat) (env : ScanEnv) (s : Sys)
  : option Sys :=
  match fuel with
  | O => None
  | S fuel' =>
      match sys_workers s !! i with
      | None => None
      | Some w =>
          let l :=
            match w_pc w with
            | Launched => LRegister i
            | Registered => LAttempt i env
            | AtFeedCheck _ _ => LFeedCheck i
            | AtAppend _ => LFeedAppend i
            | AtSortCheck => LFeedSort i
            | AtBookkeeping => LBookkeeping i
            end in
          match exec l s with
          | None => None
          | Some s' =>
              if (length (sys_workers s') <? length (sys_workers s))%nat
              then Some s'
              else run_worker fuel' i env s'
          end
      end
  end.

Definition is_rhp2_call (c : Call) : bool :=
  match c with CallWithTransportV2 _ _ _ => true | _ => false end.

Definition is_rhp3_call (c : Call) : bool :=
  match c with CallWithTransportV3 _ _ _ => true | _ => false end.

(** ** Facts about durations *)

Lemma wrap64_id z : in_int64 z -> wrap64 z = z.
Proof.
  unfold in_int64, wrap64. intros Hz.
  rewrite Z.mod_small; lia.
Qed.

Lemma Since_gt now t c :
  0 <= c < maxDuration -> (Since now t >? c) = (now - t >? c).
Proof.
  unfold Since, Sub. unfold_durations. intros Hc.
  repeat case_match; lia.
Qed.

Lemma Since_lt now t c :
  minDuration < c <= maxDuration -> (Since now t <? c) = (now - t <? c).
Proof.
  unfold Since, Sub. unfold_durations. intros Hc.
  repeat case_match; lia.
Qed.

Lemma calculateScanInterval_range now host :
  30 * Minute <= calculateScanInterval now host <= 24 * Hour.
Proof.
  unfold calculateScanInterval. unfold_durations.
  repeat case_match; lia.
Qed.

Lemma interval_table_mono d1 d2 :
  d1 <= d2 -> interval_table (Some d1) <= interval_table (Some d2).
Proof.
  unfold interval_table. unfold_durations. intros Hd.
  repeat case_match; lia.
Qed.

(** ** The interval policy *)

(** C6: [calculateScanInterval] is the table of the specification on the time
    since the host was last seen (30 min when never seen or at most 24 h ago,
    then 1 h, 2 h, 4 h, 6 h, 12 h at the bounds 2 d, 3 d, 7 d, 14 d, 28 d, each
    bound belonging to the row below it, and 24 h beyond 28 d), and it does
    not decrease when that time grows. *)
Theorem calculateScanInterval_table :
  (forall now host,
     calculateScanInterval now host = interval_table (sinceLastSeen now host)) /\
  (forall now host, IsZero (LastSeen host) = true ->
     calculateScanInterval now host = 30 * Minute) /\
  (forall now host d, sinceLastSeen now host = Some d ->
     (d <= 24 * Hour -> calculateScanInterval now host = 30 * Minute) /\
     (24 * Hour < d <= 2 * 24 * Hour -> calculateScanInterval now host = 1 * Hour) /\
     (2 * 24 * Hour < d <= 3 * 24 * Hour -> calculateScanInterval now host = 2 * Hour) /\
     (3 * 24 * Hour < d <= 7 * 24 * Hour -> calculateScanInterval now host = 4 * Hour) /\
     (7 * 24 * Hour < d <= 14 * 24 * Hour -> calculateScanInterval now host = 6 * Hour) /\
     (14 * 24 * Hour < d <= 28 * 24 * Hour -> calculateScanInterval now host = 12 * Hour) /\
     (28 * 24 * Hour < d -> calculateScanInterval now host = 24 * Hour)) /\
  (forall now1 host1 now2 host2 d1 d2,
     sinceLastSeen now1 host1 = Some d1 ->
     sinceLastSeen now2 host2 = Some d2 ->
     d1 <= d2 ->
     calculateScanInterval now1 host1 <= calculateScanInterval now2 host2).
Proof.
  assert (Htab : forall now host,
    calculateScanInterval now host = interval_table (sinceLastSeen now host)).
  { intros now host. unfold calculateScanInterval, sinceLastSeen.
    destruct (IsZero (LastSeen host)); [reflexivity|].
    rewrite !Since_gt by (unfold_durations; lia).
    unfold interval_table. unfold_durations.
    repeat case_match; lia. }
  split; [exact Htab|]. split; [|split].
  - intros now host Hz. rewrite Htab. unfold sinceLastSeen. now rewrite Hz.
  - intros now host d Hd. rewrite Htab, Hd. unfold interval_table.
    unfold_durations. repeat split; intros; repeat case_match; lia.
  - intros now1 host1 now2 host2 d1 d2 H1 H2 Hle.
    rewrite !Htab, H1, H2. now apply interval_table_mono.
Qed.

(** ** [queueScan] *)

Lemma toBenchmark_last now host :
  toBenchmark now host =
  match last (ScanHistory host) with
  | Some s => bool_decide (now - Timestamp s < calculateScanInterval now host)
  | None => false
  end.
Proof.
  unfold toBenchmark. cbv zeta.
  rewrite last_lookup.
  replace (Init.Nat.pred (length (ScanHistory host)))
    with (length (ScanHistory host) - 1)%nat by lia.
  destruct (ScanHistory host) as [|x l] eqn:Hh; [reflexivity|].
  destruct ((x :: l) !! (length (x :: l) - 1)%nat) as [sc|] eqn:Hl.
  - replace (0 <? Z.of_nat (length (x :: l))) with true
      by (symmetry; apply Z.ltb_lt; simpl; lia).
    pose proof (calculateScanInterval_range now host) as Hr.
    simpl. rewrite Since_lt by (unfold_durations; lia).
    destruct (Z.ltb_spec (now - Timestamp sc) (calculateScanInterval now host)).
    + now rewrite bool_decide_eq_true_2.
    + rewrite bool_decide_eq_false_2; [reflexivity | lia].
  - now rewrite andb_false_r.
Qed.



(** C8: [queueScan] on a host whose key is in [scanMap] changes nothing: the
    two lists, the map, the counter and every other field stay as they are. *)
Theorem queueScan_in_flight now host hdb b :
  scanMap hdb !! hPublicKey host = Some b ->
  queueScan now host hdb = hdb /\
  length (scanList (queueScan now host hdb)) = length (scanList hdb) /\
  length (benchmarkList (queueScan now host hdb)) = length (benchmarkList hdb).
Proof.
  intros Hin. unfold queueScan. rewrite Hin. auto.
Qed.

(** ** [scanHost] *)

Lemma written_app cs1 cs2 : written (cs1 ++ cs2) = written cs1 ++ written cs2.
Proof. unfold written. apply flat_map_app. Qed.

Lemma count_calls_app p cs1 cs2 :
  count_calls p (cs1 ++ cs2) = (count_calls p cs1 + count_calls p cs2)%nat.
Proof. unfold count_calls. now rewrite List.filter_app, length_app. Qed.

Lemma calls_before_quiet env latencies host :
  written (calls_before env latencies host) = [] /\
  count_calls is_incrementSuccess (calls_before env latencies host) = 0%nat /\
  count_calls is_incrementFailure (calls_before env latencies host) = 0%nat.
Proof.
  unfold calls_before, scanAttempt, protocolAttempt, resolveIPNets.
  destruct (LookupIPNets env (NetAddress host)) as [ipNets [e|]];
    cbn [fst snd];
    match goal with |- context [WithTransportV2 env ?l ?a ?k] =>
      destruct (WithTransportV2 env l a k) as [st [e2|]] end;
    try match goal with |- context [WithTransportV3 env ?l ?a ?k] =>
      destruct (WithTransportV3 env l a k) as [pt e3] end;
    cbn [at_calls];
    destruct (minScans <? Z.of_nat (length latencies));
    rewrite ?written_app, ?count_calls_app; cbn; auto.
Qed.

Lemma scanHost_record_canceled env latencies host :
  isCanceled (at_err (scanAttempt env latencies host)) = true ->
  scanHost_record env latencies host =
  mkScanned (updateHostHistoricInteractions (fst (resolveIPNets env host)))
    (calls_before env latencies host) None.
Proof.
  unfold scanHost_record, calls_before, scanAttempt.
  destruct (resolveIPNets env host) as [host1 calls1]. cbn [fst snd].
  intros ->. now rewrite <- app_assoc.
Qed.

Lemma scanAttempt_success env latencies host :
  (at_success (scanAttempt env latencies host) = true <->
   rhp2_error env latencies host = None) /\
  (at_success (scanAttempt env latencies host) = false ->
   at_err (scanAttempt env latencies host) = rhp2_error env latencies host).
Proof.
  unfold scanAttempt, rhp2_error, protocolAttempt. cbv zeta.
  match goal with |- context [WithTransportV2 env ?l ?a ?k] =>
    destruct (WithTransportV2 env l a k) as [st [e2|]] end; cbn [snd].
  - cbn. split; [split; discriminate | reflexivity].
  - match goal with |- context [WithTransportV3 env ?l ?a ?k] =>
      destruct (WithTransportV3 env l a k) as [pt e3] end.
    cbn. split; [split; reflexivity | discriminate].
Qed.

Lemma scanHost_record_completed env latencies host :
  let a := scanAttempt env latencies host in
  let r := scanHost_record env latencies host in
  isCanceled (at_err a) = false ->
  written (sc_calls r) =
    [mkHostScan (at_start a) (at_success a) (at_latency a)
       (error_text (at_err a)) (at_settings a) (at_pt a)] /\
  count_calls is_incrementSuccess (sc_calls r) =
    match at_err a with Some _ => 0%nat | None => 1%nat end /\
  count_calls is_incrementFailure (sc_calls r) =
    match at_err a with Some _ => 1%nat | None => 0%nat end /\
  sc_result r = Some (at_success a, at_latency a).
Proof.
  intros a r Hc. subst r.
  pose proof (calls_before_quiet env latencies host) as (Hw & Hs & Hf).
  revert Hw Hs Hf. unfold scanHost_record, calls_before. subst a.
  revert Hc. unfold scanAttempt.
  destruct (resolveIPNets env host) as [host1 calls1]. cbn [fst snd].
  set (host2 := updateHostHistoricInteractions host1).
  set (a := protocolAttempt env latencies host2).
  intros -> Hw Hs Hf. rewrite app_assoc in Hw, Hs, Hf.
  set (pre := (calls1 ++ [CallUpdateHostHistoricInteractions (hPublicKey host1)])
              ++ at_calls a) in *.
  destruct (at_err a) as [e|]; cbn [error_text].
  - destruct (updateScanHistory _ _) as [host4 [se|]]; cbn [sc_calls sc_result];
      rewrite ?written_app, ?count_calls_app, Hw, Hs, Hf; cbn; auto.
  - destruct (updateScanHistory _ _) as [host4 [se|]]; cbn [sc_calls sc_result];
      rewrite ?written_app, ?count_calls_app, Hw, Hs, Hf; cbn; auto.
Qed.

(** C1, as the code has it: when the protocol attempt ends with an error
    whose text contains the marker, [scanHost] returns at once: no scan
    record is handed to the store, neither interaction counter is
    incremented, and the database is left as it was, so the host's entry
    stays in [scanMap] and [scanThreads] is not decremented. *)
Theorem scanHost_canceled env hdb host e :
  at_err (scanAttempt env (initialScanLatencies hdb) host) = Some e ->
  strings_Contains e "canceled" = true ->
  let '(hdb', _, calls) := scanHost env hdb host in
  written calls = [] /\
  count_calls is_incrementSuccess calls = 0%nat /\
  count_calls is_incrementFailure calls = 0%nat /\
  hdb' = hdb /\
  scanMap hdb' !! hPublicKey host = scanMap hdb !! hPublicKey host /\
  scanThreads hdb' = scanThreads hdb.
Proof.
  intros He Hc. unfold scanHost.
  rewrite scanHost_record_canceled by (rewrite He; exact Hc).
  cbn [sc_result sc_host sc_calls].
  pose proof (calls_before_quiet env (initialScanLatencies hdb) host)
    as (Hw & Hs & Hf).
  auto 10.
Qed.

(** C2, as the code has it: a scan that is not abandoned hands exactly one
    record to the store; its success flag is true exactly when the RHP-v2
    transport returned no error, and its error text is the text of the error
    the whole attempt ended with (empty when it ended with none).
    [IncrementSuccessfulInteractions] is called exactly when the attempt
    ended with no error, and then the record has the flag set and no error
    text; [IncrementFailedInteractions] is called exactly when it ended with
    an error, which is always so when the flag is not set. *)
Theorem scanHost_record_flags env latencies host :
  isCanceled (at_err (scanAttempt env latencies host)) = false ->
  let a := scanAttempt env latencies host in
  let calls := sc_calls (scanHost_record env latencies host) in
  exists scan,
    written calls = [scan] /\
    (Success scan = true <-> rhp2_error env latencies host = None) /\
    Error scan = error_text (at_err a) /\
    (at_err a = None ->
       count_calls is_incrementSuccess calls = 1%nat /\
       count_calls is_incrementFailure calls = 0%nat /\
       Success scan = true /\ Error scan = EmptyString) /\
    (forall e, at_err a = Some e ->
       count_calls is_incrementSuccess calls = 0%nat /\
       count_calls is_incrementFailure calls = 1%nat /\
       Error scan = e) /\
    (Success scan = false ->
       count_calls is_incrementFailure calls = 1%nat /\
       at_err a = rhp2_error env latencies host /\
       at_err a <> None).
Proof.
  intros Hc a calls. subst calls.
  destruct (scanHost_record_completed env latencies host Hc)
    as (Hw & Hs & Hf & _).
  destruct (scanAttempt_success env latencies host) as (Hsucc & Hfail).
  fold a in Hw, Hs, Hf, Hsucc, Hfail.
  eexists. split; [exact Hw|]. cbn [Success Error].
  split; [exact Hsucc|]. split; [reflexivity|].
  split; [|split].
  - intros Hn. rewrite Hn in Hs, Hf. rewrite Hn. cbn.
    assert (Hsu : at_success a = true).
    { destruct (at_success a) eqn:Hsu; [reflexivity|].
      specialize (Hfail eq_refl). rewrite Hn in Hfail.
      symmetry in Hfail. now apply Hsucc in Hfail. }
    auto.
  - intros e He. rewrite He in Hs, Hf. rewrite He. cbn. auto.
  - intros Hfalse. specialize (Hfail Hfalse).
    assert (Hne : at_err a <> None).
    { intros Hn. rewrite Hn in Hfail. symmetry in Hfail.
      apply Hsucc in Hfail. congruence. }
    repeat split; auto.
    destruct (at_err a); [exact Hf | congruence].
Qed.

(** C10: when a scan is abandoned because of cancellation, the host object
    is as address resolution and [updateHostHistoricInteractions] have left
    it: if resolution succeeded with a set that differs from the stored one,
    the stored set and [LastIPChange] were replaced before the attempt, the
    historic interactions were folded after that, and nothing is undone
    (the new set and time are still there whenever the fold leaves these
    two fields alone). *)
Theorem scanHost_canceled_keeps_host env hdb host :
  isCanceled (at_err (scanAttempt env (initialScanLatencies hdb) host)) = true ->
  let '(_, host', calls) := scanHost env hdb host in
  let host1 := fst (resolveIPNets env host) in
  host' = updateHostHistoricInteractions host1 /\
  In (CallUpdateHostHistoricInteractions (hPublicKey host1)) calls /\
  (forall ipNets,
     LookupIPNets env (NetAddress host) = (ipNets, None) ->
     EqualIPNets ipNets (IPNets host) = false ->
     IPNets host1 = ipNets /\ LastIPChange host1 = now_ipchange env) /\
  (forall ipNets err,
     LookupIPNets env (NetAddress host) = (ipNets, err) ->
     err <> None \/ EqualIPNets ipNets (IPNets host) = true ->
     host1 = host) /\
  ((forall h, IPNets (updateHostHistoricInteractions h) = IPNets h /\
              LastIPChange (updateHostHistoricInteractions h) = LastIPChange h) ->
   forall ipNets,
     LookupIPNets env (NetAddress host) = (ipNets, None) ->
     EqualIPNets ipNets (IPNets host) = false ->
     IPNets host' = ipNets /\ LastIPChange host' = now_ipchange env).
Proof.
  intros Hc. unfold scanHost.
  rewrite scanHost_record_canceled by exact Hc.
  cbn [sc_result sc_host sc_calls].
  assert (Hres : forall ipNets,
    LookupIPNets env (NetAddress host) = (ipNets, None) ->
    EqualIPNets ipNets (IPNets host) = false ->
    IPNets (fst (resolveIPNets env host)) = ipNets /\
    LastIPChange (fst (resolveIPNets env host)) = now_ipchange env).
  { intros ipNets Hl Hne. unfold resolveIPNets. rewrite Hl, Hne. cbn. auto. }
  split; [reflexivity|]. split; [|split; [exact Hres|split]].
  - unfold calls_before. apply in_or_app. right. now left.
  - intros ipNets err Hl Hor. unfold resolveIPNets. rewrite Hl.
    destruct err as [e'|]; cbn [fst]; [reflexivity|].
    destruct Hor as [Hn | ->]; [congruence | reflexivity].
  - intros Hkeep ipNets Hl Hne.
    destruct (Hkeep (fst (resolveIPNets env host))) as [-> ->].
    exact (Hres ipNets Hl Hne).
Qed.

(** ** The latency tracker *)

Lemma sort_Slice_sorted l : Sorted Z.le (sort_Slice l).
Proof. apply Sorted_merge_sort; apply _. Qed.

Lemma sort_Slice_length l : length (sort_Slice l) = length l.
Proof. unfold sort_Slice. apply Permutation_length, merge_sort_Permutation. Qed.

Lemma sort_Slice_of_sorted l : Sorted Z.le l -> sort_Slice l = l.
Proof.
  intros Hs. apply (Sorted_unique Z.le); [apply sort_Slice_sorted | exact Hs |].
  apply merge_sort_Permutation.
Qed.

(** The time limit on a buffer in ascending order: it is 2 minutes while
    the buffer holds fewer than 25 samples (sorted or not); with 25 samples
    in ascending order it is the smaller of five times their median and 2
    minutes (durations being 64-bit, five times the median has to fit); for
    the samples 10 ms, ..., 250 ms, of median 130 ms, it is 650 ms. Line 75
    takes the element in the middle of the buffer as it is: that the
    buffer is in ascending order is left to the writer of lines 146-154. *)
Theorem scanTimeout_adaptive (buf : list Duration) :
  ((length buf < 25)%nat -> scanTimeout buf = 2 * Minute) /\
  (length buf = 25%nat -> Sorted Z.le buf -> in_int64 (5 * median buf) ->
     scanTimeout buf = Z.min (5 * median buf) (2 * Minute)) /\
  (length S3_samples = 25%nat /\ Sorted Z.le S3_samples /\
   median S3_samples = 130 * Millisecond /\
   scanTimeout S3_samples = 650 * Millisecond).
Proof.
  split; [|split].
  - intros Hlt. unfold scanTimeout.
    destruct (Z.eqb_spec (Z.of_nat (length buf)) minScans) as [Heq|]; [|reflexivity].
    unfold minScans in Heq. lia.
  - intros Hlen Hs Hfit. unfold scanTimeout, median.
    rewrite (sort_Slice_of_sorted _ Hs), Hlen. cbn [Z.of_nat].
    unfold median in Hfit. rewrite (sort_Slice_of_sorted _ Hs), Hlen in Hfit.
    change (Z.of_nat 25 =? minScans) with true. cbv iota.
    set (m := nth (25 / 2) buf 0) in *.
    rewrite (Z.mul_comm m 5), wrap64_id by exact Hfit.
    destruct (Z.gtb_spec (5 * m) (2 * Minute)); lia.
  - split; [reflexivity|]. split; [|split; vm_compute; reflexivity].
    apply (bool_decide_unpack (Sorted Z.le S3_samples)). vm_compute. exact I.
Qed.

Lemma feedLatency_length success latency hdb :
  (length (initialScanLatencies hdb) <= 25)%nat ->
  (length (initialScanLatencies (feedLatency success latency hdb)) <= 25)%nat.
Proof.
  intros Hle. unfold feedLatency, feed_check.
  destruct success; cbn [andb]; [|exact Hle].
  destruct (Z.ltb_spec (Z.of_nat (length (initialScanLatencies hdb))) 25);
    [|exact Hle].
  unfold feed_sort, feed_append. cbn.
  case_match; cbn; rewrite ?sort_Slice_length, length_app; cbn; lia.
Qed.

Lemma feedLatency_full success latency hdb :
  length (initialScanLatencies hdb) = 25%nat ->
  feedLatency success latency hdb = hdb.
Proof.
  intros Hlen. unfold feedLatency, feed_check. rewrite Hlen.
  now rewrite andb_false_r.
Qed.

Lemma feedLatency_sorted success latency hdb :
  (length (initialScanLatencies hdb) < 25)%nat ->
  length (initialScanLatencies (feedLatency success latency hdb)) = 25%nat ->
  Sorted Z.le (initialScanLatencies (feedLatency success latency hdb)).
Proof.
  intros Hlt. unfold feedLatency, feed_check.
  destruct success; cbn [andb]; [|lia].
  destruct (Z.ltb_spec (Z.of_nat (length (initialScanLatencies hdb))) 25); [|lia].
  unfold feed_sort, feed_append. cbn.
  case_match eqn:Heq; cbn.
  - intros _. apply sort_Slice_sorted.
  - rewrite length_app. cbn. intros Hlen.
    apply Z.eqb_neq in Heq. rewrite length_app in Heq. cbn in Heq. lia.
Qed.

(** ** The dispatcher and its workers *)

Lemma queueScan_scanThreads now host hdb :
  scanThreads (queueScan now host hdb) = scanThreads hdb.
Proof. unfold queueScan. repeat case_match; reflexivity. Qed.

Lemma feed_sort_scanThreads hdb : scanThreads (feed_sort hdb) = scanThreads hdb.
Proof. unfold feed_sort. case_match; reflexivity. Qed.

Lemma wrap64_small z : -100 <= z <= 200 -> wrap64 z = z.
Proof. intros Hz. apply wrap64_id. unfold in_int64. lia. Qed.

(** The goroutine a step is about, and where it stands. *)
Ltac pick_worker s i w Hw :=
  destruct (sys_workers s !! i) as [w|] eqn:Hw; [|discriminate];
  destruct (w_pc w); try discriminate.

Lemma counter_inv_init : counter_inv sys_init.
Proof. unfold counter_inv. cbn. unfold maxScanThreads. lia. Qed.

Lemma exec_counter_inv l s s' :
  counter_inv s -> exec l s = Some s' -> counter_inv s'.
Proof.
  unfold counter_inv, maxScanThreads. intros (Heq & Hle) Hex.
  destruct l; cbn in Hex.
  - destruct (sys_mu s); simplify_eq. cbn.
    rewrite queueScan_scanThreads. auto.
  - destruct (sys_mu s || sys_dispatching s); [discriminate|].
    destruct (scanList (sys_hdb s)) as [|entry rest]; [discriminate|].
    destruct (Z.ltb_spec (scanThreads (sys_hdb s)) maxScanThreads) as [Hlt|];
      simplify_eq; [|auto].
    unfold maxScanThreads in Hlt. cbn. rewrite length_app. cbn.
    rewrite wrap64_small by lia. lia.
  - destruct (sys_dispatching s), (sys_mu s); simplify_eq. cbn. auto.
  - simplify_eq. cbn. auto.
  - pick_worker s i w Hw.
    unfold tg_Add, mu_Unlock in Hex.
    destruct (sys_stopped s).
    + destruct (sys_mu s); simplify_eq. cbn.
      rewrite length_delete by eauto.
      apply lookup_lt_Some in Hw. lia.
    + simplify_eq. cbn. rewrite length_insert. auto.
  - pick_worker s i w Hw.
    destruct (sys_mu s); [discriminate|].
    destruct (sc_result _) as [[success latency]|]; simplify_eq; cbn.
    + rewrite length_insert. auto.
    + rewrite length_delete by eauto.
      apply lookup_lt_Some in Hw. lia.
  - pick_worker s i w Hw; simplify_eq. cbn. rewrite length_insert. auto.
  - pick_worker s i w Hw; simplify_eq. cbn. rewrite length_insert. auto.
  - pick_worker s i w Hw; simplify_eq. cbn.
    rewrite length_insert, feed_sort_scanThreads. auto.
  - pick_worker s i w Hw.
    destruct (sys_mu s); simplify_eq. cbn.
    rewrite length_delete by eauto.
    apply lookup_lt_Some in Hw.
    rewrite wrap64_small by lia. lia.
Qed.

Lemma run_counter_inv ls : forall s s',
  counter_inv s -> run ls s = Some s' -> counter_inv s'.
Proof.
  induction ls as [|l ls IH]; intros s s' Hinv Hrun; cbn in Hrun.
  - now simplify_eq.
  - destruct (exec l s) as [s1|] eqn:Hex; [|discriminate].
    eapply IH; [|exact Hrun]. eapply exec_counter_inv; eauto.
Qed.

Lemma exec_increment l s s' :
  counter_inv s -> exec l s = Some s' ->
  scanThreads (sys_hdb s) < scanThreads (sys_hdb s') ->
  l = LDispatch /\
  scanThreads (sys_hdb s) < maxScanThreads /\
  scanThreads (sys_hdb s') = scanThreads (sys_hdb s) + 1 /\
  exists entry,
    head (scanList (sys_hdb s)) = Some entry /\
    sys_workers s' = sys_workers s ++ [mkWorker entry Launched].
Proof.
  unfold counter_inv, maxScanThreads. intros (Heq & Hle) Hex Hlt.
  destruct l; cbn in Hex.
  - destruct (sys_mu s); simplify_eq. cbn in Hlt.
    rewrite queueScan_scanThreads in Hlt. lia.
  - destruct (sys_mu s || sys_dispatching s); [discriminate|].
    destruct (scanList (sys_hdb s)) as [|entry rest]; [discriminate|].
    destruct (Z.ltb_spec (scanThreads (sys_hdb s)) maxScanThreads) as [Hl|];
      simplify_eq; [|lia].
    unfold maxScanThreads in Hl. cbn.
    rewrite wrap64_small by lia. eauto 10.
  - destruct (sys_dispatching s), (sys_mu s); simplify_eq. cbn in Hlt. lia.
  - simplify_eq. cbn in Hlt. lia.
  - pick_worker s i w Hw.
    unfold tg_Add, mu_Unlock in Hex.
    destruct (sys_stopped s); [destruct (sys_mu s)|]; simplify_eq;
      cbn in Hlt; lia.
  - pick_worker s i w Hw.
    destruct (sys_mu s); [discriminate|].
    destruct (sc_result _) as [[success latency]|]; simplify_eq;
      cbn in Hlt; lia.
  - pick_worker s i w Hw; simplify_eq. cbn in Hlt. lia.
  - pick_worker s i w Hw; simplify_eq. cbn in Hlt. lia.
  - pick_worker s i w Hw; simplify_eq. cbn in Hlt.
    rewrite feed_sort_scanThreads in Hlt. lia.
  - pick_worker s i w Hw.
    destruct (sys_mu s); simplify_eq. cbn in Hlt.
    apply lookup_lt_Some in Hw.
    rewrite wrap64_small in Hlt by lia. lia.
Qed.

Lemma exec_launch l s s' :
  counter_inv s -> exec l s = Some s' ->
  (length (sys_workers s) < length (sys_workers s'))%nat ->
  l = LDispatch /\
  scanThreads (sys_hdb s) < maxScanThreads /\
  scanThreads (sys_hdb s') = scanThreads (sys_hdb s) + 1.
Proof.
  unfold counter_inv, maxScanThreads. intros (Heq & Hle) Hex Hlt.
  destruct l; cbn in Hex.
  - destruct (sys_mu s); simplify_eq. cbn in Hlt. lia.
  - destruct (sys_mu s || sys_dispatching s); [discriminate|].
    destruct (scanList (sys_hdb s)) as [|entry rest]; [discriminate|].
    destruct (Z.ltb_spec (scanThreads (sys_hdb s)) maxScanThreads) as [Hl|];
      simplify_eq; [|lia].
    unfold maxScanThreads in Hl. cbn.
    rewrite wrap64_small by lia. auto.
  - destruct (sys_dispatching s), (sys_mu s); simplify_eq. cbn in Hlt. lia.
  - simplify_eq. cbn in Hlt. lia.
  - pick_worker s i w Hw.
    unfold tg_Add, mu_Unlock in Hex.
    destruct (sys_stopped s); [destruct (sys_mu s)|]; simplify_eq;
      cbn in Hlt; rewrite ?length_insert, ?length_delete in Hlt by eauto; lia.
  - pick_worker s i w Hw.
    destruct (sys_mu s); [discriminate|].
    destruct (sc_result _) as [[success latency]|]; simplify_eq;
      cbn in Hlt; rewrite ?length_insert, ?length_delete in Hlt by eauto; lia.
  - pick_worker s i w Hw; simplify_eq. cbn in Hlt.
    rewrite length_insert in Hlt. lia.
  - pick_worker s i w Hw; simplify_eq. cbn in Hlt.
    rewrite length_insert in Hlt. lia.
  - pick_worker s i w Hw; simplify_eq. cbn in Hlt.
    rewrite length_insert in Hlt. lia.
  - pick_worker s i w Hw.
    destruct (sys_mu s); simplify_eq. cbn in Hlt.
    rewrite length_delete in Hlt by eauto. lia.
Qed.

(** C3, as the code has it: in every state the system reaches, the
    scan-thread counter is the number of live scan goroutines plus the number
    of those that returned without the bookkeeping (registration refused, or
    scan abandoned on cancellation), so it is never below the number of live
    workers and equals it while none has returned that way; it never exceeds
    100; a step raises it only in the dispatcher, only from below 100, by
    one, together with the launch of one worker on the head of the scan
    list; and a worker is launched only by such a step. *)
Theorem scanThreads_invariant ls s :
  run ls sys_init = Some s ->
  scanThreads (sys_hdb s)
    = Z.of_nat (length (sys_workers s)) + Z.of_nat (sys_abandoned s) /\
  Z.of_nat (length (sys_workers s)) <= scanThreads (sys_hdb s) /\
  (sys_abandoned s = 0%nat ->
     scanThreads (sys_hdb s) = Z.of_nat (length (sys_workers s))) /\
  scanThreads (sys_hdb s) <= 100 /\
  (forall l s', exec l s = Some s' ->
     scanThreads (sys_hdb s) < scanThreads (sys_hdb s') ->
     l = LDispatch /\
     scanThreads (sys_hdb s) < 100 /\
     scanThreads (sys_hdb s') = scanThreads (sys_hdb s) + 1 /\
     exists entry,
       head (scanList (sys_hdb s)) = Some entry /\
       sys_workers s' = sys_workers s ++ [mkWorker entry Launched]) /\
  (forall l s', exec l s = Some s' ->
     (length (sys_workers s) < length (sys_workers s'))%nat ->
     l = LDispatch /\
     scanThreads (sys_hdb s) < 100 /\
     scanThreads (sys_hdb s') = scanThreads (sys_hdb s) + 1).
Proof.
  intros Hrun.
  pose proof (run_counter_inv ls _ _ counter_inv_init Hrun) as Hinv.
  pose proof Hinv as (Heq & Hle). unfold maxScanThreads in Hle.
  split; [exact Heq|]. split; [lia|]. split; [intros H0; rewrite H0 in Heq; lia|].
  split; [exact Hle|]. split.
  - intros l s' Hex Hlt. exact (exec_increment l s s' Hinv Hex Hlt).
  - intros l s' Hex Hlt. exact (exec_launch l s s' Hinv Hex Hlt).
Qed.

(** What a goroutine refused by the thread group leaves alone: when its
    unlock of [hdb.mu] (lines 193 and 215) finds the mutex locked, it returns
    with the queues, the in-flight map, the scan-thread counter, the
    benchmarking flag and the latency buffer as before, and without a call
    made; the mutex, which it never locked, is then free. When the mutex is
    not locked, the unlock is the fatal run-time error and the goroutine does
    not return. *)
Theorem refused_worker_frame (e : string) (env : ScanEnv) (entry : HostDBEntry)
    (s : Sys) :
  (forall s',
     scanWorker (Some e) env entry s = Some s' \/
     benchWorker (Some e) entry s = Some s' ->
     sys_hdb s' = sys_hdb s /\
     scanList (sys_hdb s') = scanList (sys_hdb s) /\
     benchmarkList (sys_hdb s') = benchmarkList (sys_hdb s) /\
     scanMap (sys_hdb s') = scanMap (sys_hdb s) /\
     scanThreads (sys_hdb s') = scanThreads (sys_hdb s) /\
     benchmarking (sys_hdb s') = benchmarking (sys_hdb s) /\
     sys_calls s' = sys_calls s /\
     sys_workers s' = sys_workers s) /\
  (sys_mu s = true ->
     exists s', scanWorker (Some e) env entry s = Some s' /\
                benchWorker (Some e) entry s = Some s') /\
  (sys_mu s = false ->
     scanWorker (Some e) env entry s = None /\
     benchWorker (Some e) entry s = None).
Proof.
  unfold scanWorker, benchWorker, mu_Unlock.
  split; [|split].
  - intros s' Hs. destruct (sys_mu s); [|destruct Hs; discriminate].
    assert (Hs' : s' = mkSys (sys_hdb s) false (sys_stopped s)
                         (sys_dispatching s) (sys_workers s)
                         (sys_abandoned s) (sys_calls s))
      by (destruct Hs; congruence).
    subst s'. cbn. auto 10.
  - intros ->. eauto.
  - intros ->. auto.
Qed.

(** ** More of the scanner: cancellation marker, time limit, queueing *)

Lemma prefix_iff (sub s : string) :
  String.prefix sub s = true <-> exists b, s = (sub ++ b)%string.
Proof.
  revert s. induction sub as [|c sub IH]; intros s.
  - split; [intros _; exists s; reflexivity|].
    intros _. destruct s; reflexivity.
  - destruct s as [|d s]; cbn.
    + split; [discriminate | intros (b & Hb); discriminate Hb].
    + destruct (ascii_dec c d) as [->|Hne].
      * rewrite IH. split; intros (b & Hb); exists b.
        -- now subst.
        -- now injection Hb.
      * split; [discriminate|]. intros (b & Hb). injection Hb. congruence.
Qed.

Lemma strings_Contains_iff (s sub : string) :
  strings_Contains s sub = true <->
  exists a b, s = (a ++ sub ++ b)%string.
Proof.
  split.
  - induction s as [|c s IH]; cbn [strings_Contains]; rewrite orb_true_iff.
    + intros [Hp | Hf]; [|discriminate].
      apply prefix_iff in Hp as (b & Hb). exists EmptyString, b. exact Hb.
    + intros [Hp | Hc].
      * apply prefix_iff in Hp as (b & Hb). exists EmptyString, b. exact Hb.
      * destruct (IH Hc) as (a & b & ->). exists (String c a), b. reflexivity.
  - intros (a & b & ->). induction a as [|c a IH].
    + assert (Hp : String.prefix sub (sub ++ b) = true)
        by (apply prefix_iff; eauto).
      change (EmptyString ++ sub ++ b)%string with (sub ++ b)%string.
      destruct (sub ++ b)%string; cbn [strings_Contains]; rewrite Hp; reflexivity.
    + change (String c a ++ sub ++ b)%string
        with (String c (a ++ sub ++ b)%string).
      cbn [strings_Contains]. rewrite IH. apply orb_true_r.
Qed.

(** X1: line 118 takes a scan for cancelled exactly when there is an error
    and the word "canceled" stands somewhere in its text, whatever is before
    and after it. *)
Theorem isCanceled_iff (err : error) :
  isCanceled err = true <->
  exists a b, err = Some (a ++ "canceled" ++ b)%string.
Proof.
  unfold isCanceled. destruct err as [e|].
  - rewrite strings_Contains_iff. split.
    + intros (a & b & ->). eauto.
    + intros (a & b & Heq). exists a, b. congruence.
  - split; [discriminate|]. intros (a & b & Heq). discriminate.
Qed.

Lemma wrap64_range z : in_int64 (wrap64 z).
Proof.
  unfold in_int64, wrap64.
  pose proof (Z.mod_pos_bound (z + 2 ^ 63) (2 ^ 64)). lia.
Qed.

(** X2: whatever the latency buffer holds, the time limit of a scan is a
    64-bit value of at most 2 minutes, so the limit given to the context,
    4 minutes more, is computed without overflow and is at most 6 minutes;
    the time limit is not negative when the middle sample is neither
    negative nor so large that five times it overflows. *)
Theorem scanTimeout_bounds (buf : list Duration) :
  minDuration <= scanTimeout buf <= 2 * Minute /\
  wrap64 (scanTimeout buf + 4 * Minute) = scanTimeout buf + 4 * Minute /\
  scanTimeout buf + 4 * Minute <= 6 * Minute /\
  (0 <= 5 * nth (length buf / 2)%nat buf 0 < 2 ^ 63 -> 0 <= scanTimeout buf).
Proof.
  assert (Hr : minDuration <= scanTimeout buf <= 2 * Minute).
  { unfold scanTimeout.
    destruct (Z.of_nat (length buf) =? minScans); [|unfold_durations; lia].
    pose proof (wrap64_range (nth (length buf / 2)%nat buf 0 * 5)) as Hw.
    unfold in_int64 in Hw.
    destruct (Z.gtb_spec (wrap64 (nth (length buf / 2)%nat buf 0 * 5))
                (2 * Minute)); unfold_durations; lia. }
  split; [exact Hr|]. split; [|split].
  - apply wrap64_id. unfold in_int64. unfold_durations. lia.
  - unfold_durations. lia.
  - intros Hm. unfold scanTimeout.
    destruct (Z.of_nat (length buf) =? minScans); [|unfold_durations; lia].
    rewrite (Z.mul_comm _ 5), wrap64_id by (unfold in_int64; lia).
    destruct (Z.gtb_spec (5 * nth (length buf / 2)%nat buf 0) (2 * Minute));
      unfold_durations; lia.
Qed.

Lemma queueScan_lookup now host hdb :
  is_Some (scanMap (queueScan now host hdb) !! hPublicKey host).
Proof.
  unfold queueScan.
  destruct (scanMap hdb !! hPublicKey host) as [b|] eqn:Hl; [rewrite Hl; eauto|].
  destruct (toBenchmark now host); cbn; rewrite lookup_insert_eq; eauto.
Qed.

(** X3: after [queueScan] the host's key is in [scanMap], and a further
    [queueScan] of any host with that key, at any time and whatever its other
    fields, changes nothing: hosts are queued once per key. *)
Theorem queueScan_once_per_key now1 now2 (host1 host2 : HostDBEntry) hdb :
  hPublicKey host2 = hPublicKey host1 ->
  is_Some (scanMap (queueScan now1 host1 hdb) !! hPublicKey host1) /\
  queueScan now2 host2 (queueScan now1 host1 hdb) = queueScan now1 host1 hdb.
Proof.
  intros Hk. pose proof (queueScan_lookup now1 host1 hdb) as [b Hb].
  split; [eauto|].
  unfold queueScan at 1. rewrite Hk, Hb. reflexivity.
Qed.

Lemma feedAll_full outs : forall hdb,
  length (initialScanLatencies hdb) = 25%nat -> feedAll outs hdb = hdb.
Proof.
  induction outs as [|[s l] outs IH]; intros hdb Hlen; [reflexivity|].
  unfold feedAll in *. cbn. rewrite feedLatency_full by exact Hlen. now apply IH.
Qed.

Lemma tracked_short l : (length l < 25)%nat -> tracked l = l.
Proof.
  intros Hlt. unfold tracked. cbv zeta. rewrite take_ge by lia.
  destruct (Z.eqb_spec (Z.of_nat (length l)) 25); [lia | reflexivity].
Qed.

Lemma feedAll_tracked outs : forall hdb,
  (length (initialScanLatencies hdb) < 25)%nat ->
  initialScanLatencies (feedAll outs hdb)
    = tracked (initialScanLatencies hdb ++ successes outs).
Proof.
  induction outs as [|[s l] outs IH]; intros hdb Hlt.
  - cbn. rewrite app_nil_r. symmetry. now apply tracked_short.
  - change (feedAll ((s, l) :: outs) hdb)
      with (feedAll outs (feedLatency s l hdb)).
    destruct s.
    + change (successes ((true, l) :: outs)) with (l :: successes outs).
      unfold feedLatency, feed_check. cbn [andb].
      destruct (Z.ltb_spec (Z.of_nat (length (initialScanLatencies hdb))) 25);
        [|lia].
      unfold feed_sort, feed_append. cbn [initialScanLatencies set_initialScanLatencies].
      destruct (Z.eqb_spec
                  (Z.of_nat (length (initialScanLatencies hdb ++ [l]))) 25)
        as [Heq|Hne].
      * rewrite feedAll_full
          by (cbn; rewrite sort_Slice_length; lia).
        cbn. unfold tracked. cbv zeta.
        assert (Hl25 : length (initialScanLatencies hdb ++ [l]) = 25%nat)
          by (apply Nat2Z.inj; exact Heq).
        replace (initialScanLatencies hdb ++ l :: successes outs)
          with ((initialScanLatencies hdb ++ [l]) ++ successes outs)
          by (now rewrite <- app_assoc).
        rewrite (take_app_length' _ _ 25 (eq_sym Hl25)), Heq. reflexivity.
      * rewrite length_app in Hne. cbn in Hne.
        rewrite IH by (cbn; rewrite length_app; cbn; lia).
        cbn. now rewrite <- app_assoc.
    + change (successes ((false, l) :: outs)) with (successes outs).
      unfold feedLatency, feed_check. cbn [andb]. now apply IH.
Qed.

Lemma tracked_length l : (length (tracked l) <= 25)%nat.
Proof.
  unfold tracked. cbv zeta. pose proof (length_take_le l 25).
  case_match; rewrite ?sort_Slice_length; rewrite length_take; lia.
Qed.

(** X4: when the scans end one after the other (lines 146-154 never
    interleaved), starting with an empty buffer, the buffer holds the
    latencies of the first 25 scans marked successful: in the order of
    arrival while there are fewer than 25, in ascending order from the
    25th on; later scans never change it. *)
Theorem feedAll_first_25 (outs : list (bool * Duration)) (hdb : HostDB) :
  initialScanLatencies hdb = [] ->
  let buf := initialScanLatencies (feedAll outs hdb) in
  buf = tracked (successes outs) /\
  ((length (successes outs) < 25)%nat -> buf = successes outs) /\
  ((25 <= length (successes outs))%nat ->
     buf = sort_Slice (take 25 (successes outs)) /\
     length buf = 25%nat /\ Sorted Z.le buf /\
     forall more, initialScanLatencies (feedAll (outs ++ more) hdb) = buf) /\
  (length buf <= 25)%nat.
Proof.
  intros Hnil buf.
  assert (Hbuf : forall o, initialScanLatencies (feedAll o hdb)
                           = tracked (successes o)).
  { intros o. rewrite feedAll_tracked by (rewrite Hnil; cbn; lia).
    now rewrite Hnil. }
  subst buf. rewrite Hbuf.
  split; [reflexivity|]. split; [apply tracked_short|]. split.
  - intros Hge.
    assert (Ht : tracked (successes outs) = sort_Slice (take 25 (successes outs))).
    { unfold tracked. cbv zeta. rewrite length_take_le by lia. reflexivity. }
    assert (Hl : length (tracked (successes outs)) = 25%nat).
    { rewrite Ht, sort_Slice_length, length_take_le; lia. }
    split; [exact Ht|]. split; [exact Hl|]. split.
    + rewrite Ht. apply sort_Slice_sorted.
    + intros more. unfold feedAll. rewrite fold_left_app.
      fold (feedAll outs hdb). fold (feedAll more (feedAll outs hdb)).
      rewrite feedAll_full; [apply Hbuf|]. now rewrite Hbuf.
  - apply tracked_length.
Qed.

(** ** More of the scanner: the end of a scan and the dispatcher's loops *)


Lemma drainScans_spec queue : forall hdb,
  scanList hdb = queue ->
  0 <= scanThreads hdb <= 100 ->
  let n := Z.to_nat (Z.min (Z.of_nat (length queue)) (100 - scanThreads hdb)) in
  fst (drainScans queue hdb) =
    mkHostDB (benchmarking hdb) (initialScanLatencies hdb) (drop n queue)
      (benchmarkList hdb) (scanMap hdb) (scanThreads hdb + Z.of_nat n) /\
  snd (drainScans queue hdb) = take n queue.
Proof.
  induction queue as [|entry rest IH]; intros hdb Hq Hr n; subst n.
  - replace (Z.to_nat (Z.min (Z.of_nat (length (@nil HostDBEntry)))
                         (100 - scanThreads hdb))) with 0%nat by (cbn; lia).
    cbn. rewrite Z.add_0_r, <- Hq. destruct hdb; auto.
  - cbn [drainScans].
    destruct (Z.ltb_spec (scanThreads hdb) maxScanThreads) as [Hlt|Hge];
      unfold maxScanThreads in *.
    + specialize (IH (dispatch_take rest hdb) eq_refl).
      cbn [dispatch_take scanThreads] in IH.
      rewrite wrap64_small in IH by lia.
      destruct (IH ltac:(lia)) as (IH1 & IH2).
      destruct (drainScans rest (dispatch_take rest hdb)) as [h launched].
      cbn [fst snd] in *. subst h launched. cbn [length].
      replace (Z.to_nat (Z.min (Z.of_nat (S (length rest))) (100 - scanThreads hdb)))
        with (S (Z.to_nat (Z.min (Z.of_nat (length rest))
                             (100 - (scanThreads hdb + 1))))) by lia.
      cbn. split; [f_equal; lia | reflexivity].
    + replace (Z.to_nat (Z.min (Z.of_nat (length (entry :: rest)))
                           (100 - scanThreads hdb))) with 0%nat by lia.
      cbn. rewrite Z.add_0_r, <- Hq. destruct hdb; auto.
Qed.

(** X6: run without interruption, the dispatcher's scan loop starts
    goroutines for the first [n] entries of the scan list, in the order of
    the list, where [n] is the smaller of the length of the list and the
    room left under 100; it removes them from the list, adds [n] to
    [scanThreads], and stops with the list empty or the counter at 100;
    nothing else changes. *)
Theorem scanDrain_takes_what_fits (hdb : HostDB) :
  0 <= scanThreads hdb <= 100 ->
  let n := Z.to_nat (Z.min (Z.of_nat (length (scanList hdb)))
                       (100 - scanThreads hdb)) in
  let '(hdb', launched) := scanDrain hdb in
  launched = take n (scanList hdb) /\
  scanList hdb' = drop n (scanList hdb) /\
  scanThreads hdb' = scanThreads hdb + Z.of_nat (length launched) /\
  scanThreads hdb' <= 100 /\
  (scanList hdb' = [] \/ scanThreads hdb' = 100) /\
  scanMap hdb' = scanMap hdb /\
  benchmarkList hdb' = benchmarkList hdb /\
  benchmarking hdb' = benchmarking hdb /\
  initialScanLatencies hdb' = initialScanLatencies hdb.
Proof.
  intros Hr n. unfold scanDrain.
  destruct (drainScans_spec (scanList hdb) hdb eq_refl Hr) as (H1 & H2).
  fold n in H1, H2.
  destruct (drainScans (scanList hdb) hdb) as [hdb' launched].
  cbn [fst snd] in *. subst hdb' launched. cbn.
  assert (Hn : (n <= length (scanList hdb))%nat) by (subst n; lia).
  rewrite length_take_le by exact Hn.
  split; [reflexivity|]. split; [reflexivity|]. split; [reflexivity|].
  split; [subst n; lia|]. split; [|auto].
  destruct (decide (n = length (scanList hdb))) as [Heq|Hne].
  - left. rewrite Heq. apply drop_all.
  - right. subst n. lia.
Qed.

(** X7: run without interruption, the dispatcher's benchmark loop starts at
    most one benchmark: none when one is running or the list is empty,
    otherwise one for the head of the list, which it removes, setting the
    benchmarking flag; every other host stays in the list, however long it
    is, and nothing else changes. *)
Theorem benchmarkDrain_at_most_one (hdb : HostDB) :
  let '(hdb', launched) := benchmarkDrain hdb in
  (benchmarking hdb = true -> hdb' = hdb /\ launched = []) /\
  (benchmarkList hdb = [] -> hdb' = hdb /\ launched = []) /\
  (forall entry rest,
     benchmarking hdb = false -> benchmarkList hdb = entry :: rest ->
     launched = [entry] /\ benchmarkList hdb' = rest /\
     benchmarking hdb' = true) /\
  (length launched <= 1)%nat /\
  scanList hdb' = scanList hdb /\
  scanMap hdb' = scanMap hdb /\
  scanThreads hdb' = scanThreads hdb /\
  initialScanLatencies hdb' = initialScanLatencies hdb.
Proof.
  unfold benchmarkDrain.
  destruct (benchmarkList hdb) as [|entry rest] eqn:Hl; cbn [drainBenchmarks].
  - repeat split; auto; discriminate.
  - destruct (benchmarking hdb) eqn:Hb; cbn [negb].
    + repeat split; auto; try discriminate; try (cbn; lia).
    + assert (Hrest : drainBenchmarks rest (dispatch_bench rest hdb)
                      = (dispatch_bench rest hdb, [])) by (destruct rest; reflexivity).
      rewrite Hrest. cbn.
      repeat split; auto; try discriminate; intros; simplify_eq; auto.
      all: try (cbn; lia).
Qed.

(** ** More of the scanner: hosts in flight and the mutex *)

Lemma elem_of_delete_lookup {A} (l : list A) (i : nat) (x : A) :
  x ∈ delete i l -> exists j, j <> i /\ l !! j = Some x.
Proof.
  intros [j Hj]%list_elem_of_lookup.
  destruct (decide (j < i)%nat) as [Hlt|Hge].
  - exists j. rewrite list_lookup_delete_lt in Hj by exact Hlt. split; [lia | exact Hj].
  - exists (S j). rewrite list_lookup_delete_ge in Hj by lia. split; [lia | exact Hj].
Qed.

Lemma elem_of_insert_inv {A} (l : list A) (i : nat) (x y : A) :
  y ∈ <[i:=x]> l -> y = x \/ y ∈ l.
Proof.
  intros [j Hj]%list_elem_of_lookup.
  rewrite list_lookup_insert in Hj.
  destruct (decide (i = j ∧ (i < length l)%nat)) as [_|_].
  - left. congruence.
  - right. eapply list_elem_of_lookup_2. exact Hj.
Qed.

Lemma in_flight_known sl bl m ws k :
  in_flight sl bl m ws -> k ∈ in_flight_keys sl bl ws -> is_Some (m !! k).
Proof.
  intros (_ & Hs & Hb & Hw). unfold in_flight_keys.
  rewrite !elem_of_app, !list_elem_of_fmap.
  intros [(h & -> & Hh) | [(h & -> & Hh) | (w & -> & Hh)]]; eauto.
Qed.

Lemma in_flight_queue sl bl m ws host (tb : bool) :
  in_flight sl bl m ws -> m !! hPublicKey host = None ->
  in_flight (if tb then sl else sl ++ [host]) (if tb then bl ++ [host] else bl)
    (<[hPublicKey host := tb]> m) ws.
Proof.
  intros Hin Hnone.
  assert (Hfresh : hPublicKey host ∉ in_flight_keys sl bl ws).
  { intros Hk. destruct (in_flight_known _ _ _ _ _ Hin Hk) as [b Hb]. congruence. }
  assert (Hne : forall k b, m !! k = Some b -> hPublicKey host <> k)
    by (intros k b Hk Heq; congruence).
  destruct Hin as (Hnd & Hs & Hb & Hw).
  split; [|split; [|split]].
  - unfold in_flight_keys in *. destruct tb; rewrite fmap_app; cbn.
    + rewrite <- !app_assoc. cbn.
      rewrite (app_assoc (hPublicKey <$> sl)), <- Permutation_middle.
      rewrite <- app_assoc. apply NoDup_cons. auto.
    + rewrite <- !app_assoc. cbn. rewrite <- Permutation_middle.
      apply NoDup_cons. auto.
  - intros h Hh. destruct tb.
    + rewrite lookup_insert_ne by eauto. auto.
    + apply elem_of_app in Hh as [Hh | ->%list_elem_of_singleton].
      * rewrite lookup_insert_ne by eauto. auto.
      * apply lookup_insert_eq.
  - intros h Hh. destruct tb.
    + apply elem_of_app in Hh as [Hh | ->%list_elem_of_singleton].
      * rewrite lookup_insert_ne by eauto. auto.
      * apply lookup_insert_eq.
    + rewrite lookup_insert_ne by eauto. auto.
  - intros w Hh. rewrite lookup_insert_ne by eauto. auto.
Qed.

Lemma in_flight_dispatch entry rest bl m ws :
  in_flight (entry :: rest) bl m ws ->
  in_flight rest bl m (ws ++ [mkWorker entry Launched]).
Proof.
  intros (Hnd & Hs & Hb & Hw). split; [|split; [|split]].
  - unfold in_flight_keys in *. rewrite fmap_app. cbn in *.
    rewrite !app_assoc, <- Permutation_cons_append, <- !app_assoc. exact Hnd.
  - intros h Hh. apply Hs. now right.
  - exact Hb.
  - intros w [Hh | ->%list_elem_of_singleton]%elem_of_app; [auto|].
    cbn. apply Hs. now left.
Qed.

Lemma in_flight_replace sl bl m ws i w x :
  in_flight sl bl m ws -> ws !! i = Some w ->
  hPublicKey (w_entry x) = hPublicKey (w_entry w) ->
  in_flight sl bl m (<[i:=x]> ws).
Proof.
  intros (Hnd & Hs & Hb & Hw) Hi Hk. split; [|split; [|split]]; try assumption.
  - unfold in_flight_keys in *. rewrite list_fmap_insert, Hk.
    rewrite list_insert_id; [exact Hnd|].
    now rewrite list_lookup_fmap, Hi.
  - intros w' [-> | Hin]%elem_of_insert_inv; [|auto].
    rewrite Hk. apply Hw. eapply list_elem_of_lookup_2; eauto.
Qed.

Lemma in_flight_abandon sl bl m ws i :
  in_flight sl bl m ws -> in_flight sl bl m (delete i ws).
Proof.
  intros (Hnd & Hs & Hb & Hw). split; [|split; [|split]]; try assumption.
  - unfold in_flight_keys in *. rewrite list_fmap_delete.
    eapply sublist_NoDup; [exact Hnd|].
    apply sublist_app; [reflexivity|].
    apply sublist_app; [reflexivity | apply sublist_delete].
  - intros w Hin. apply Hw. eapply list_elem_of_delete_inv; eauto.
Qed.

Lemma in_flight_bookkeeping sl bl m ws i w :
  in_flight sl bl m ws -> ws !! i = Some w ->
  in_flight sl bl (delete (hPublicKey (w_entry w)) m) (delete i ws).
Proof.
  intros Hin Hi.
  destruct (in_flight_abandon _ _ _ _ i Hin) as (Hnd' & _).
  destruct Hin as (Hnd & Hs & Hb & Hw).
  unfold in_flight_keys in Hnd.
  apply NoDup_app in Hnd as (_ & Hsl & Hnd).
  apply NoDup_app in Hnd as (_ & Hbl & Hnd).
  assert (Hkw : hPublicKey (w_entry w) ∈ (fun w => hPublicKey (w_entry w)) <$> ws).
  { apply list_elem_of_fmap. eexists. split; [reflexivity|].
    eapply list_elem_of_lookup_2; eauto. }
  split; [exact Hnd'|]. split; [|split].
  - intros h Hh. rewrite lookup_delete_ne; [auto|].
    intros Heq. apply (Hsl (hPublicKey h)).
    + now apply list_elem_of_fmap_2.
    + apply elem_of_app. right. now rewrite <- Heq.
  - intros h Hh. rewrite lookup_delete_ne; [auto|].
    intros Heq. apply (Hbl (hPublicKey h)).
    + now apply list_elem_of_fmap_2.
    + now rewrite <- Heq.
  - intros w' (j & Hj & Hw')%elem_of_delete_lookup.
    rewrite lookup_delete_ne; [apply Hw; eapply list_elem_of_lookup_2; eauto|].
    intros Heq. apply Hj.
    eapply (NoDup_lookup _ j i); [exact Hnd| |].
    + rewrite list_lookup_fmap, Hw'. reflexivity.
    + rewrite list_lookup_fmap, Hi. cbn. now rewrite Heq.
Qed.

Lemma scanHost_record_key env latencies host :
  keeps_key updateHostHistoricInteractions ->
  keeps_key IncrementSuccessfulInteractions ->
  keeps_key IncrementFailedInteractions ->
  (forall h sc, hPublicKey (fst (updateScanHistory h sc)) = hPublicKey h) ->
  hPublicKey (sc_host (scanHost_record env latencies host)) = hPublicKey host.
Proof.
  intros Hu Hs Hf Hr. unfold scanHost_record.
  assert (H1 : hPublicKey (fst (resolveIPNets env host)) = hPublicKey host).
  { unfold resolveIPNets.
    destruct (LookupIPNets env (NetAddress host)) as [ipNets [e|]]; cbn;
      [reflexivity|]. destruct (negb _); reflexivity. }
  destruct (resolveIPNets env host) as [host1 calls1]. cbn [fst] in H1.
  destruct (isCanceled _); cbn [sc_host]; [now rewrite Hu|].
  destruct (at_err _) as [e|].
  - match goal with |- context [updateScanHistory ?h ?sc] =>
      specialize (Hr h sc); destruct (updateScanHistory h sc) as [h4 se] end.
    cbn [fst] in Hr. destruct se; cbn [sc_host]; now rewrite Hr, Hf, Hu.
  - match goal with |- context [updateScanHistory ?h ?sc] =>
      specialize (Hr h sc); destruct (updateScanHistory h sc) as [h4 se] end.
    cbn [fst] in Hr. destruct se; cbn [sc_host]; now rewrite Hr, Hs, Hu.
Qed.

Lemma exec_in_flight_inv l s s' :
  keeps_key updateHostHistoricInteractions ->
  keeps_key IncrementSuccessfulInteractions ->
  keeps_key IncrementFailedInteractions ->
  (forall h sc, hPublicKey (fst (updateScanHistory h sc)) = hPublicKey h) ->
  in_flight_inv s -> exec l s = Some s' -> in_flight_inv s'.
Proof.
  intros Hu Hs Hf Hr. unfold in_flight_inv. intros Hin Hex.
  destruct l; cbn in Hex.
  - destruct (sys_mu s); simplify_eq. cbn. unfold queueScan.
    destruct (scanMap (sys_hdb s) !! hPublicKey host) eqn:Hl; [exact Hin|].
    pose proof (in_flight_queue _ _ _ _ host (toBenchmark now host) Hin Hl) as Hq.
    destruct (toBenchmark now host); exact Hq.
  - destruct (sys_mu s || sys_dispatching s); [discriminate|].
    destruct (scanList (sys_hdb s)) as [|entry rest] eqn:Hl; [discriminate|].
    destruct (scanThreads (sys_hdb s) <? maxScanThreads); simplify_eq.
    + cbn. now apply in_flight_dispatch.
    + now rewrite Hl.
  - destruct (sys_dispatching s), (sys_mu s); simplify_eq. exact Hin.
  - simplify_eq. exact Hin.
  - pick_worker s i w Hw.
    unfold tg_Add, mu_Unlock in Hex.
    destruct (sys_stopped s); [destruct (sys_mu s)|]; simplify_eq; cbn.
    + now apply in_flight_abandon.
    + eapply in_flight_replace; eauto.
  - pick_worker s i w Hw.
    destruct (sys_mu s); [discriminate|].
    destruct (sc_result _) as [[success latency]|] eqn:Hres; simplify_eq; cbn.
    + eapply in_flight_replace; eauto. cbn. now apply scanHost_record_key.
    + now apply in_flight_abandon.
  - pick_worker s i w Hw; simplify_eq. cbn. eapply in_flight_replace; eauto.
  - pick_worker s i w Hw; simplify_eq. cbn. eapply in_flight_replace; eauto.
  - pick_worker s i w Hw; simplify_eq. cbn.
    unfold feed_sort. destruct (Z.of_nat _ =? 25); cbn;
      eapply in_flight_replace; eauto.
  - pick_worker s i w Hw.
    destruct (sys_mu s); simplify_eq. cbn. now apply in_flight_bookkeeping.
Qed.

(** X8: as long as the functions that work on a host leave its public key
    alone, no host is ever in flight twice: in every state the system
    reaches, the keys of the hosts in the scan list, in the benchmark list
    and with the scan goroutines are pairwise distinct, and [scanMap] holds
    each of them, with [true] for the hosts of the benchmark list and [false]
    for the others. *)
Theorem no_host_in_flight_twice ls s :
  keeps_key updateHostHistoricInteractions ->
  keeps_key IncrementSuccessfulInteractions ->
  keeps_key IncrementFailedInteractions ->
  (forall h sc, hPublicKey (fst (updateScanHistory h sc)) = hPublicKey h) ->
  run ls sys_init = Some s ->
  NoDup (in_flight_keys (scanList (sys_hdb s)) (benchmarkList (sys_hdb s))
           (sys_workers s)) /\
  (forall h : HostDBEntry, h ∈ scanList (sys_hdb s) ->
     scanMap (sys_hdb s) !! hPublicKey h = Some false) /\
  (forall h : HostDBEntry, h ∈ benchmarkList (sys_hdb s) ->
     scanMap (sys_hdb s) !! hPublicKey h = Some true) /\
  (forall w : Worker, w ∈ sys_workers s ->
     scanMap (sys_hdb s) !! hPublicKey (w_entry w) = Some false).
Proof.
  intros Hu Hs Hf Hr.
  assert (Hinit : in_flight_inv sys_init).
  { unfold in_flight_inv, in_flight. cbn.
    repeat split; [constructor | | |]; intros ? Hx; inversion Hx. }
  revert Hinit. generalize sys_init.
  induction ls as [|l ls IH]; intros s0 Hinv Hrun; cbn in Hrun.
  - simplify_eq. exact Hinv.
  - destruct (exec l s0) as [s1|] eqn:Hex; [|discriminate].
    eapply IH; [|exact Hrun]. eapply exec_in_flight_inv; eauto.
Qed.

Lemma exec_mutex_inv l s s' :
  mutex_inv s -> exec l s = Some s' -> mutex_inv s'.
Proof.
  unfold mutex_inv. intros H Hex.
  destruct l; cbn in Hex.
  - destruct (sys_mu s) eqn:Hmu; simplify_eq. cbn. rewrite ?Hmu. exact H.
  - destruct (sys_mu s) eqn:Hmu, (sys_dispatching s) eqn:Hd; cbn in Hex;
      try discriminate.
    destruct (scanList (sys_hdb s)) as [|entry rest]; [discriminate|].
    destruct (scanThreads (sys_hdb s) <? maxScanThreads); simplify_eq; cbn;
      intros; congruence.
  - destruct (sys_dispatching s), (sys_mu s); simplify_eq. cbn.
    intros _ Hd. discriminate.
  - simplify_eq. cbn. discriminate.
  - pick_worker s i w Hw.
    unfold tg_Add, mu_Unlock in Hex.
    destruct (sys_stopped s) eqn:Hst; [destruct (sys_mu s)|]; simplify_eq; cbn.
    + rewrite ?Hst. discriminate.
    + rewrite ?Hst. exact H.
  - pick_worker s i w Hw.
    destruct (sys_mu s) eqn:Hmu; [discriminate|].
    destruct (sc_result _) as [[success latency]|]; simplify_eq; cbn;
      rewrite ?Hmu; exact H.
  - pick_worker s i w Hw; simplify_eq. cbn. exact H.
  - pick_worker s i w Hw; simplify_eq. cbn. exact H.
  - pick_worker s i w Hw; simplify_eq. cbn. exact H.
  - pick_worker s i w Hw.
    destruct (sys_mu s) eqn:Hmu; simplify_eq. cbn. rewrite ?Hmu. exact H.
Qed.

(** X9: as long as the thread group has not been stopped, [hdb.mu] is locked
    in every state the system reaches with the dispatcher between its lock
    on line 186 and its unlock on line 203, so that this unlock succeeds: the
    one statement that releases the mutex without having locked it is the
    unlock of a goroutine refused by the thread group (lines 193 and 215),
    which takes a stopped group. *)
Theorem dispatcher_unlock_succeeds ls s :
  run ls sys_init = Some s ->
  sys_stopped s = false -> sys_dispatching s = true ->
  sys_mu s = true /\ is_Some (exec LDispatchUnlock s).
Proof.
  assert (Hinit : mutex_inv sys_init).
  { unfold mutex_inv. cbn. discriminate. }
  revert Hinit. generalize sys_init.
  induction ls as [|l ls IH]; intros s0 Hinv Hrun; cbn in Hrun.
  - simplify_eq. intros Hst Hd. pose proof (Hinv Hst Hd) as Hmu.
    split; [exact Hmu|]. cbn. rewrite Hd, Hmu. eauto.
  - destruct (exec l s0) as [s1|] eqn:Hex; [|discriminate].
    eapply IH; [|exact Hrun]. eapply exec_mutex_inv; eauto.
Qed.

(** ** More of the scanner: a scan from queueing to bookkeeping *)

Lemma scanHost_record_result env latencies host :
  sc_result (scanHost_record env latencies host) =
  if isCanceled (at_err (scanAttempt env latencies host)) then None
  else Some (at_success (scanAttempt env latencies host),
             at_latency (scanAttempt env latencies host)).
Proof.
  destruct (isCanceled (at_err (scanAttempt env latencies host))) eqn:Hc.
  - now rewrite scanHost_record_canceled.
  - now destruct (scanHost_record_completed env latencies host Hc) as (_ & _ & _ & ->).
Qed.

Lemma feedLatency_frame success latency hdb :
  scanMap (feedLatency success latency hdb) = scanMap hdb /\
  scanThreads (feedLatency success latency hdb) = scanThreads hdb /\
  scanList (feedLatency success latency hdb) = scanList hdb /\
  benchmarkList (feedLatency success latency hdb) = benchmarkList hdb /\
  benchmarking (feedLatency success latency hdb) = benchmarking hdb.
Proof.
  unfold feedLatency, feed_sort, feed_append.
  destruct (feed_check success hdb); [|auto]. cbn.
  destruct (Z.of_nat _ =? 25); cbn; auto.
Qed.

(** X10: a host that is not in flight and is due for a scan, queued into an
    empty scan list with room under 100, is the one the dispatcher starts;
    when its scan is not abandoned (and its key is left alone), [scanMap],
    [scanThreads], both lists and the benchmarking flag are afterwards what
    they were before the host was queued, so the host can be queued again. *)
Theorem scan_cycle_round_trip now env hdb host :
  keeps_key updateHostHistoricInteractions ->
  keeps_key IncrementSuccessfulInteractions ->
  keeps_key IncrementFailedInteractions ->
  (forall h sc, hPublicKey (fst (updateScanHistory h sc)) = hPublicKey h) ->
  scanMap hdb !! hPublicKey host = None ->
  toBenchmark now host = false ->
  scanList hdb = [] ->
  0 <= scanThreads hdb < 100 ->
  isCanceled (at_err (scanAttempt env (initialScanLatencies hdb) host)) = false ->
  let hdb1 := queueScan now host hdb in
  let hdb2 := fst (scanDrain hdb1) in
  let hdb3 := fst (fst (scanHost env hdb2 host)) in
  snd (scanDrain hdb1) = [host] /\
  scanMap hdb2 !! hPublicKey host = Some false /\
  scanThreads hdb2 = scanThreads hdb + 1 /\
  scanMap hdb3 = scanMap hdb /\
  scanMap hdb3 !! hPublicKey host = None /\
  scanThreads hdb3 = scanThreads hdb /\
  scanList hdb3 = [] /\
  benchmarkList hdb3 = benchmarkList hdb /\
  benchmarking hdb3 = benchmarking hdb.
Proof.
  intros Hu Hs Hf Hr Hnone Htb Hsl Hth Hc hdb1 hdb2 hdb3.
  assert (H1 : hdb1 = mkHostDB (benchmarking hdb) (initialScanLatencies hdb)
                        [host] (benchmarkList hdb)
                        (<[hPublicKey host := false]> (scanMap hdb))
                        (scanThreads hdb)).
  { subst hdb1. unfold queueScan. now rewrite Hnone, Htb, Hsl. }
  assert (H2 : scanDrain hdb1 =
               (mkHostDB (benchmarking hdb) (initialScanLatencies hdb)
                  [] (benchmarkList hdb)
                  (<[hPublicKey host := false]> (scanMap hdb))
                  (scanThreads hdb + 1), [host])).
  { rewrite H1. unfold scanDrain. cbn.
    destruct (Z.ltb_spec (scanThreads hdb) maxScanThreads) as [_|Hge];
      [|unfold maxScanThreads in Hge; lia].
    unfold dispatch_take. cbn. rewrite wrap64_small by lia. reflexivity. }
  subst hdb3 hdb2. rewrite H2. cbn [fst snd].
  split; [reflexivity|]. split; [cbn; apply lookup_insert_eq|].
  split; [reflexivity|].
  unfold scanHost. rewrite scanHost_record_result. cbn [initialScanLatencies].
  rewrite Hc. cbn [fst].
  pose proof (scanHost_record_key env (initialScanLatencies hdb) host
                Hu Hs Hf Hr) as Hk.
  rewrite Hk.
  match goal with |- context [feedLatency ?a ?b ?h] =>
    destruct (feedLatency_frame a b h) as (Fm & Ft & Fs & Fb & Fg);
    set (fed := feedLatency a b h) in * end.
  cbn [bookkeeping scanMap scanThreads scanList benchmarkList benchmarking].
  rewrite Fm, Ft, Fs, Fb, Fg. cbn.
  rewrite delete_insert_id by exact Hnone.
  rewrite wrap64_small by lia.
  repeat split; try reflexivity; [exact Hnone | lia].
Qed.

Lemma list_delete_insert {A} (l : list A) (i : nat) (x : A) :
  delete i (<[i:=x]> l) = delete i l.
Proof.
  revert i. induction l as [|y l IH]; intros [|i]; cbn; try reflexivity.
  now rewrite IH.
Qed.

Lemma run_worker_last fuel i env s w l s' :
  sys_workers s !! i = Some w ->
  l = match w_pc w with
      | Launched => LRegister i
      | Registered => LAttempt i env
      | AtFeedCheck _ _ => LFeedCheck i
      | AtAppend _ => LFeedAppend i
      | AtSortCheck => LFeedSort i
      | AtBookkeeping => LBookkeeping i
      end ->
  exec l s = Some s' ->
  (length (sys_workers s') < length (sys_workers s))%nat ->
  run_worker (S fuel) i env s = Some s'.
Proof.
  intros Hw -> Hex Hlen. cbn [run_worker]. rewrite Hw, Hex.
  destruct (Nat.ltb_spec (length (sys_workers s')) (length (sys_workers s)));
    [reflexivity | lia].
Qed.

Lemma run_worker_step fuel i env s w l s' :
  sys_workers s !! i = Some w ->
  l = match w_pc w with
      | Launched => LRegister i
      | Registered => LAttempt i env
      | AtFeedCheck _ _ => LFeedCheck i
      | AtAppend _ => LFeedAppend i
      | AtSortCheck => LFeedSort i
      | AtBookkeeping => LBookkeeping i
      end ->
  exec l s = Some s' ->
  length (sys_workers s') = length (sys_workers s) ->
  run_worker (S fuel) i env s = run_worker fuel i env s'.
Proof.
  intros Hw -> Hex Hlen. cbn [run_worker]. rewrite Hw, Hex, Hlen.
  now rewrite Nat.ltb_irrefl.
Qed.

Lemma set_pc_lookup i w p s :
  (i < length (sys_workers s))%nat ->
  sys_workers (set_pc i w p s) !! i = Some (mkWorker (w_entry w) p).
Proof. intros Hi. cbn. now apply list_lookup_insert_eq. Qed.

(** Where the goroutine ends when it goes on from a given place, in terms of
    what is left to do on the database. *)
Definition finished (i : nat) (h : HostDB) (s : Sys) : Sys :=
  mkSys h (sys_mu s) (sys_stopped s) (sys_dispatching s)
    (delete i (sys_workers s)) (sys_abandoned s) (sys_calls s).

Lemma run_worker_bookkeeping fuel i env s e :
  sys_workers s !! i = Some (mkWorker e AtBookkeeping) ->
  sys_mu s = false ->
  run_worker (S fuel) i env s
    = Some (finished i (bookkeeping (hPublicKey e) (sys_hdb s)) s).
Proof.
  intros Hw Hmu. eapply run_worker_last; [exact Hw | reflexivity | |].
  - cbn [w_pc exec]. rewrite Hw. cbn [w_pc w_entry]. now rewrite Hmu.
  - cbn. rewrite length_delete by eauto. apply lookup_lt_Some in Hw. lia.
Qed.

Lemma run_worker_sort fuel i env s e :
  sys_workers s !! i = Some (mkWorker e AtSortCheck) ->
  sys_mu s = false ->
  run_worker (S (S fuel)) i env s
    = Some (finished i (bookkeeping (hPublicKey e) (feed_sort (sys_hdb s))) s).
Proof.
  intros Hw Hmu. pose proof (lookup_lt_Some _ _ _ Hw) as Hi.
  erewrite run_worker_step; [|exact Hw|reflexivity| |].
  2:{ cbn [w_pc exec]. rewrite Hw. reflexivity. }
  2:{ cbn. apply length_insert. }
  erewrite run_worker_bookkeeping; [|now apply set_pc_lookup|exact Hmu].
  unfold finished. cbn. now rewrite list_delete_insert.
Qed.

Lemma run_worker_append fuel i env s e latency :
  sys_workers s !! i = Some (mkWorker e (AtAppend latency)) ->
  sys_mu s = false ->
  run_worker (S (S (S fuel))) i env s
    = Some (finished i (bookkeeping (hPublicKey e)
                          (feed_sort (feed_append latency (sys_hdb s)))) s).
Proof.
  intros Hw Hmu. pose proof (lookup_lt_Some _ _ _ Hw) as Hi.
  erewrite run_worker_step; [|exact Hw|reflexivity| |].
  2:{ cbn [w_pc exec]. rewrite Hw. reflexivity. }
  2:{ cbn. apply length_insert. }
  erewrite run_worker_sort; [|now apply set_pc_lookup|exact Hmu].
  unfold finished. cbn. now rewrite list_delete_insert.
Qed.

Lemma run_worker_feed fuel i env s e success latency :
  sys_workers s !! i = Some (mkWorker e (AtFeedCheck success latency)) ->
  sys_mu s = false ->
  run_worker (S (S (S (S fuel)))) i env s
    = Some (finished i (bookkeeping (hPublicKey e)
                          (feedLatency success latency (sys_hdb s))) s).
Proof.
  intros Hw Hmu. pose proof (lookup_lt_Some _ _ _ Hw) as Hi.
  erewrite run_worker_step; [|exact Hw|reflexivity| |].
  2:{ cbn [w_pc exec]. rewrite Hw. reflexivity. }
  2:{ cbn. apply length_insert. }
  cbn [w_pc w_entry]. unfold feedLatency.
  destruct (feed_check success (sys_hdb s)).
  - erewrite run_worker_append; [|now apply set_pc_lookup|exact Hmu].
    unfold finished. cbn. now rewrite list_delete_insert.
  - erewrite run_worker_bookkeeping; [|now apply set_pc_lookup|exact Hmu].
    unfold finished. cbn. now rewrite list_delete_insert.
Qed.

Lemma run_worker_attempt fuel i env s e :
  sys_workers s !! i = Some (mkWorker e Registered) ->
  sys_mu s = false ->
  let '(hdb', _, calls) := scanHost env (sys_hdb s) e in
  run_worker (S (S (S (S (S fuel))))) i env s =
  Some (mkSys hdb' (sys_mu s) (sys_stopped s) (sys_dispatching s)
          (delete i (sys_workers s))
          (if isCanceled (at_err (scanAttempt env
                                    (initialScanLatencies (sys_hdb s)) e))
           then S (sys_abandoned s) else sys_abandoned s)
          (sys_calls s ++ calls)).
Proof.
  intros Hw Hmu. pose proof (lookup_lt_Some _ _ _ Hw) as Hi.
  unfold scanHost.
  pose proof (scanHost_record_result env (initialScanLatencies (sys_hdb s)) e)
    as Hres.
  set (r := scanHost_record env (initialScanLatencies (sys_hdb s)) e) in *.
  destruct (isCanceled _).
  - rewrite Hres.
    eapply run_worker_last; [exact Hw | reflexivity | |].
    + cbn [w_pc exec]. rewrite Hw. cbn [w_pc w_entry].
      fold r. rewrite Hres. unfold abandon, add_calls. cbn.
      now rewrite Hmu.
    + cbn. rewrite length_delete by eauto. lia.
  - rewrite Hres.
    erewrite run_worker_step; [|exact Hw|reflexivity| |].
    2:{ cbn [w_pc exec]. rewrite Hw. cbn [w_pc w_entry]. rewrite Hmu.
        fold r. rewrite Hres. reflexivity. }
    2:{ cbn. apply length_insert. }
    erewrite run_worker_feed; [|now apply set_pc_lookup|exact Hmu].
    unfold finished. cbn. now rewrite list_delete_insert.
Qed.

(** X11: the steps of one scan goroutine on a thread group that is not
    stopped, taken one after the other with the mutex free, do what
    [scanHost] does: the database and the calls are those of [scanHost], the
    goroutine is gone, and it is counted as abandoned exactly when the scan
    was cancelled. *)
Theorem run_worker_is_scanHost i env s entry :
  sys_workers s !! i = Some (mkWorker entry Launched) ->
  sys_stopped s = false ->
  sys_mu s = false ->
  let '(hdb', _, calls) := scanHost env (sys_hdb s) entry in
  run_worker 6 i env s =
  Some (mkSys hdb' false false (sys_dispatching s)
          (delete i (sys_workers s))
          (if isCanceled (at_err (scanAttempt env
                                    (initialScanLatencies (sys_hdb s)) entry))
           then S (sys_abandoned s) else sys_abandoned s)
          (sys_calls s ++ calls)).
Proof.
  intros Hw Hst Hmu. pose proof (lookup_lt_Some _ _ _ Hw) as Hi.
  pose proof (run_worker_attempt 0 i env
                (set_pc i (mkWorker entry Launched) Registered s) entry
                (set_pc_lookup i _ Registered s Hi) Hmu) as Hrun.
  change (sys_hdb (set_pc i (mkWorker entry Launched) Registered s))
    with (sys_hdb s) in Hrun.
  destruct (scanHost env (sys_hdb s) entry) as [[hdb' host'] calls].
  erewrite run_worker_step; [|exact Hw|reflexivity| |].
  2:{ cbn [w_pc exec]. rewrite Hw. cbn [w_pc]. unfold tg_Add. rewrite Hst.
      reflexivity. }
  2:{ cbn. apply length_insert. }
  rewrite Hrun. cbn. now rewrite list_delete_insert, Hmu, Hst.
Qed.

(** ** More of the scanner: routing by age, and the two handshakes *)

(** X13: whatever the host's last-seen time, a host that is not in flight
    goes to the benchmark list when its newest scan record is less than 30
    minutes old, and to the scan list when that record is 24 hours old or
    older. *)
Theorem queueScan_by_age now host hdb sc :
  scanMap hdb !! hPublicKey host = None ->
  last (ScanHistory host) = Some sc ->
  (now - Timestamp sc < 30 * Minute ->
     benchmarkList (queueScan now host hdb) = benchmarkList hdb ++ [host] /\
     scanList (queueScan now host hdb) = scanList hdb /\
     scanMap (queueScan now host hdb) !! hPublicKey host = Some true) /\
  (24 * Hour <= now - Timestamp sc ->
     scanList (queueScan now host hdb) = scanList hdb ++ [host] /\
     benchmarkList (queueScan now host hdb) = benchmarkList hdb /\
     scanMap (queueScan now host hdb) !! hPublicKey host = Some false).
Proof.
  intros Hnone Hlast. unfold queueScan. rewrite Hnone.
  rewrite toBenchmark_last, Hlast.
  pose proof (calculateScanInterval_range now host) as Hr.
  split; intros Hage.
  - rewrite bool_decide_eq_true_2 by lia. cbn.
    rewrite lookup_insert_eq. auto.
  - rewrite bool_decide_eq_false_2 by lia. cbn.
    rewrite lookup_insert_eq. auto.
Qed.

(** X14: every protocol attempt calls the RHP-v2 transport exactly once, on
    the host's address and key, with a time limit of at most 6 minutes. The
    RHP-v3 transport is called exactly when RHP-v2 returned no error, once,
    with the same limit and key, on the SiaMux address of the settings just
    received; the attempt then ends with the RHP-v3 error. Otherwise RHP-v3
    is not called, the price table stays at its zero value and the attempt
    ends with the RHP-v2 error. *)
Theorem rhp3_only_after_rhp2 env latencies host :
  let a := protocolAttempt env latencies host in
  let limit := wrap64 (scanTimeout latencies + 4 * Minute) in
  let v2 := WithTransportV2 env limit (NetAddress host) (hPublicKey host) in
  let v3 := WithTransportV3 env limit (SiamuxAddr (fst v2)) (hPublicKey host) in
  limit <= 6 * Minute /\
  List.filter is_rhp2_call (at_calls a)
    = [CallWithTransportV2 limit (NetAddress host) (hPublicKey host)] /\
  at_settings a = fst v2 /\
  (snd v2 = None ->
     List.filter is_rhp3_call (at_calls a)
       = [CallWithTransportV3 limit (SiamuxAddr (fst v2)) (hPublicKey host)] /\
     at_success a = true /\ at_pt a = fst v3 /\ at_err a = snd v3) /\
  (snd v2 <> None ->
     List.filter is_rhp3_call (at_calls a) = [] /\
     at_success a = false /\ at_pt a = zeroPriceTable /\ at_err a = snd v2).
Proof.
  intros a limit v2 v3.
  assert (Hlim : limit <= 6 * Minute).
  { subst limit.
    assert (Ht : minDuration <= scanTimeout latencies <= 2 * Minute).
    { unfold scanTimeout.
      destruct (Z.of_nat (length latencies) =? minScans); [|unfold_durations; lia].
      pose proof (wrap64_range (nth (length latencies / 2)%nat latencies 0 * 5)) as Hw.
      unfold in_int64 in Hw.
      destruct (Z.gtb_spec (wrap64 (nth (length latencies / 2)%nat latencies 0 * 5))
                  (2 * Minute)); unfold_durations; lia. }
    rewrite wrap64_id by (unfold in_int64; unfold_durations; lia).
    unfold_durations. lia. }
  split; [exact Hlim|].
  subst a. unfold protocolAttempt. fold limit. fold v2.
  destruct v2 as [settings [e|]] eqn:Hv2; cbn [fst snd] in *.
  - destruct (minScans <? Z.of_nat (length latencies)); cbn;
      repeat split; auto; try congruence; intros; congruence.
  - fold v3. destruct v3 as [pt err3] eqn:Hv3.
    destruct (minScans <? Z.of_nat (length latencies)); cbn;
      repeat split; auto; try congruence; intros; congruence.
Qed.

End Scanner.

(** ** Worked examples

    A small instance: the settings are the SiaMux address alone, a price
    table is a number, the interaction counters are integers. *)

Module Demo.

Definition Entry := @HostDBEntry string Z Z.

Definition EqualIPNets (a b : list string) : bool := bool_decide (a = b).

Definition with_interactions (i : @HostInteractions Z) (h : Entry) : Entry :=
  mkHostDBEntry (ID h) (hPublicKey h) (FirstSeen h) (KnownSince h)
    (NetAddress h) (Blocked h) (Uptime h) (Downtime h) (ScanHistory h)
    (LastBenchmark h) i (LastSeen h) (IPNets h) (LastIPChange h)
    (hSettings h) (hPriceTable h).

(** Brings the counters to block height 100. *)
Definition updateHostHistoricInteractions (h : Entry) : Entry :=
  let i := Interactions h in
  with_interactions
    (mkHostInteractions (HistoricSuccesses i + RecentSuccesses i)
       (HistoricFailures i + RecentFailures i) 0 0 100) h.

Definition IncrementSuccessfulInteractions (h : Entry) : Entry :=
  let i := Interactions h in
  with_interactions
    (mkHostInteractions (HistoricSuccesses i) (HistoricFailures i)
       (RecentSuccesses i + 1) (RecentFailures i) (LastUpdate i)) h.

Definition IncrementFailedInteractions (h : Entry) : Entry :=
  let i := Interactions h in
  with_interactions
    (mkHostInteractions (HistoricSuccesses i) (HistoricFailures i)
       (RecentSuccesses i) (RecentFailures i + 1) (LastUpdate i)) h.

Definition updateScanHistory (h : Entry) (scan : @HostScan string Z)
  : Entry * error :=
  (mkHostDBEntry (ID h) (hPublicKey h) (FirstSeen h) (KnownSince h)
     (NetAddress h) (Blocked h) (Uptime h) (Downtime h)
     (ScanHistory h ++ [scan]) (LastBenchmark h) (Interactions h)
     (if Success scan then Timestamp scan else LastSeen h) (IPNets h)
     (LastIPChange h) (hSettings h) (hPriceTable h), None).

Definition benchmarkHost (_ : Entry) (hdb : @HostDB string Z Z) := hdb.

Definition scanHost :=
  scanHost 0 id EqualIPNets updateHostHistoricInteractions
    IncrementSuccessfulInteractions IncrementFailedInteractions updateScanHistory.

Definition scanHost_record :=
  scanHost_record 0 id EqualIPNets updateHostHistoricInteractions
    IncrementSuccessfulInteractions IncrementFailedInteractions updateScanHistory.

Definition scanAttempt :=
  scanAttempt 0 id EqualIPNets updateHostHistoricInteractions.

Definition rhp2_error := rhp2_error EqualIPNets updateHostHistoricInteractions.

Definition exec :=
  exec 0 id EqualIPNets updateHostHistoricInteractions
    IncrementSuccessfulInteractions IncrementFailedInteractions updateScanHistory.

Definition run :=
  run 0 id EqualIPNets updateHostHistoricInteractions
    IncrementSuccessfulInteractions IncrementFailedInteractions updateScanHistory.

(** A host that was never scanned, with key [pk]. *)
Definition host (pk : PublicKey) : Entry :=
  mkHostDBEntry 1 pk 0 0 "host.example:9982" false 0 0 []
    (mkHostBenchmark 0 false EmptyString 0 0 0)
    (mkHostInteractions 0 0 3 1 90) 0 ["10.0.0.0/24"%string] 0
    EmptyString 0.

(** The same host with one scan record, written at instant [t]. *)
Definition scanned_host (pk : PublicKey) (t : Time) : Entry :=
  mkHostDBEntry 1 pk 0 0 "host.example:9982" false 0 0
    [mkHostScan t true (120 * Millisecond) EmptyString "host.example:9983"%string 1]
    (mkHostBenchmark 0 false EmptyString 0 0 0)
    (mkHostInteractions 0 0 3 1 90) t ["10.0.0.0/24"%string] 0
    "host.example:9983"%string 1.

(** The database as [NewHostDB] returns it. *)
Definition hdb0 : @HostDB string Z Z := NewHostDB.

(** Host 7 is in flight as a scan, and one scan thread is counted. *)
Definition hdb1 : @HostDB string Z Z :=
  mkHostDB false [] [] [] {[ 7 := false ]} 1.

(** The address now resolves to another network; the stop signal fires
    during the RHP-v2 handshake. *)
Definition env_canceled : @ScanEnv string Z :=
  mkScanEnv (fun _ => (["10.0.1.0/24"%string], None)) 1000 1001
    (fun _ _ _ => (EmptyString, Some "context canceled"%string))
    (5 * Millisecond)
    (fun _ _ _ => (0, None)).

(** RHP-v2 succeeds, RHP-v3 fails. *)
Definition env_v3_fails : @ScanEnv string Z :=
  mkScanEnv (fun _ => (["10.0.0.0/24"%string], None)) 1000 1001
    (fun _ _ _ => ("host.example:9983"%string, None))
    (120 * Millisecond)
    (fun _ _ _ => (0, Some "rpc failed"%string)).

(** Both handshakes succeed, in [latency]. *)
Definition env_ok (latency : Duration) : @ScanEnv string Z :=
  mkScanEnv (fun _ => (["10.0.0.0/24"%string], None)) 1000 1001
    (fun _ _ _ => ("host.example:9983"%string, None))
    latency
    (fun _ _ _ => (1, None)).

(** Host 7 is queued and dispatched, and its scan is cancelled. *)
Definition schedule_canceled : list Label :=
  [LQueueScan 5000 (host 7); LDispatch; LDispatchUnlock; LRegister 0;
   LAttempt 0 env_canceled].

(** Host 7 is queued and dispatched; the thread group is stopped before the
    goroutine registers, which it tries while the dispatcher still holds the
    mutex. *)
Definition schedule_refused : list Label :=
  [LQueueScan 5000 (host 7); LDispatch; LStop; LRegister 0].

(** One host scanned from queueing to bookkeeping, alone. *)
Definition scan_alone (pk : PublicKey) : list Label :=
  [LQueueScan 5000 (host pk); LDispatch; LDispatchUnlock; LRegister 0;
   LAttempt 0 (env_ok (Z.of_nat (Z.to_nat pk) * (10 * Millisecond)));
   LFeedCheck 0; LFeedAppend 0; LFeedSort 0; LBookkeeping 0].

(** 24 scans one after the other, then the scans of hosts 25 and 26 side by
    side: both pass the test of line 146 before either appends, and the
    first of them appends and sorts. *)
Definition schedule_race : list Label :=
  flat_map (fun k => scan_alone (Z.of_nat k)) (seq 1 24) ++
  [LQueueScan 5000 (host 25); LDispatch; LDispatchUnlock;
   LQueueScan 5000 (host 26); LDispatch; LDispatchUnlock;
   LRegister 0; LRegister 1;
   LAttempt 0 (env_ok (250 * Millisecond));
   LAttempt 1 (env_ok (260 * Millisecond));
   LFeedCheck 0; LFeedCheck 1;
   LFeedAppend 0; LFeedSort 0].

End Demo.

(** C1, counterexample: host 7 is in flight and counted; its scan ends with
    the error "context canceled"; after [scanHost] its entry is still in
    [scanMap] and [scanThreads] is still 1. *)
Lemma scanHost_canceled_skips_bookkeeping :
  let '(hdb', _, _) := Demo.scanHost Demo.env_canceled Demo.hdb1 (Demo.host 7) in
  isCanceled (at_err (Demo.scanAttempt Demo.env_canceled
                        (initialScanLatencies Demo.hdb1) (Demo.host 7))) = true /\
  scanMap Demo.hdb1 !! 7 = Some false /\
  scanMap hdb' !! 7 = Some false /\
  scanThreads Demo.hdb1 = 1 /\
  scanThreads hdb' = 1.
Proof. vm_compute. auto. Qed.

Lemma scanHost_canceled_witness :
  let '(hdb', _, calls) := Demo.scanHost Demo.env_canceled Demo.hdb1 (Demo.host 7) in
  written calls = [] /\
  count_calls is_incrementSuccess calls = 0%nat /\
  count_calls is_incrementFailure calls = 0%nat /\
  hdb' = Demo.hdb1 /\
  scanMap hdb' !! hPublicKey (Demo.host 7) = scanMap Demo.hdb1 !! hPublicKey (Demo.host 7) /\
  scanThreads hdb' = scanThreads Demo.hdb1.
Proof.
  apply (scanHost_canceled 0 id Demo.EqualIPNets
           Demo.updateHostHistoricInteractions
           Demo.IncrementSuccessfulInteractions
           Demo.IncrementFailedInteractions Demo.updateScanHistory
           Demo.env_canceled Demo.hdb1 (Demo.host 7) "context canceled");
    reflexivity.
Defined.

(** C2, counterexample: RHP-v2 succeeds and RHP-v3 fails with "rpc failed";
    the record written has the success flag set and that error text, and the
    call made is [IncrementFailedInteractions]. *)
Lemma v3_failure_recorded_as_success :
  let calls := sc_calls (Demo.scanHost_record Demo.env_v3_fails [] (Demo.host 7)) in
  exists scan,
    written calls = [scan] /\
    Success scan = true /\
    Error scan = "rpc failed"%string /\
    Error scan <> EmptyString /\
    count_calls is_incrementSuccess calls = 0%nat /\
    count_calls is_incrementFailure calls = 1%nat.
Proof.
  eexists. split; [vm_compute; reflexivity|]. cbn [Success Error].
  repeat split; try reflexivity. discriminate.
Qed.

Lemma scanHost_record_flags_witness :
  let a := Demo.scanAttempt Demo.env_v3_fails [] (Demo.host 7) in
  let calls := sc_calls (Demo.scanHost_record Demo.env_v3_fails [] (Demo.host 7)) in
  exists scan : @HostScan string Z,
    written calls = [scan] /\
    (Success scan = true <->
     Demo.rhp2_error Demo.env_v3_fails [] (Demo.host 7) = None) /\
    Error scan = error_text (at_err a) /\
    (at_err a = None ->
       count_calls is_incrementSuccess calls = 1%nat /\
       count_calls is_incrementFailure calls = 0%nat /\
       Success scan = true /\ Error scan = EmptyString) /\
    (forall e, at_err a = Some e ->
       count_calls is_incrementSuccess calls = 0%nat /\
       count_calls is_incrementFailure calls = 1%nat /\
       Error scan = e) /\
    (Success scan = false ->
       count_calls is_incrementFailure calls = 1%nat /\
       at_err a = Demo.rhp2_error Demo.env_v3_fails [] (Demo.host 7) /\
       at_err a <> None).
Proof.
  apply (scanHost_record_flags 0 id Demo.EqualIPNets
           Demo.updateHostHistoricInteractions
           Demo.IncrementSuccessfulInteractions
           Demo.IncrementFailedInteractions Demo.updateScanHistory
           Demo.env_v3_fails [] (Demo.host 7)).
  reflexivity.
Defined.

Lemma scanHost_canceled_keeps_host_witness :
  let '(_, host', calls) := Demo.scanHost Demo.env_canceled Demo.hdb1 (Demo.host 7) in
  let host1 := fst (resolveIPNets Demo.EqualIPNets Demo.env_canceled (Demo.host 7)) in
  host' = Demo.updateHostHistoricInteractions host1 /\
  In (CallUpdateHostHistoricInteractions (hPublicKey host1)) calls /\
  (forall ipNets,
     LookupIPNets Demo.env_canceled (NetAddress (Demo.host 7)) = (ipNets, None) ->
     Demo.EqualIPNets ipNets (IPNets (Demo.host 7)) = false ->
     IPNets host1 = ipNets /\ LastIPChange host1 = now_ipchange Demo.env_canceled) /\
  (forall ipNets err,
     LookupIPNets Demo.env_canceled (NetAddress (Demo.host 7)) = (ipNets, err) ->
     err <> None \/ Demo.EqualIPNets ipNets (IPNets (Demo.host 7)) = true ->
     host1 = Demo.host 7) /\
  ((forall h, IPNets (Demo.updateHostHistoricInteractions h) = IPNets h /\
              LastIPChange (Demo.updateHostHistoricInteractions h) = LastIPChange h) ->
   forall ipNets,
     LookupIPNets Demo.env_canceled (NetAddress (Demo.host 7)) = (ipNets, None) ->
     Demo.EqualIPNets ipNets (IPNets (Demo.host 7)) = false ->
     IPNets host' = ipNets /\ LastIPChange host' = now_ipchange Demo.env_canceled).
Proof.
  apply (scanHost_canceled_keeps_host 0 id Demo.EqualIPNets
           Demo.updateHostHistoricInteractions
           Demo.IncrementSuccessfulInteractions
           Demo.IncrementFailedInteractions Demo.updateScanHistory
           Demo.env_canceled Demo.hdb1 (Demo.host 7)).
  reflexivity.
Defined.


Lemma queueScan_in_flight_witness :
  queueScan 5000 (Demo.host 7) Demo.hdb1 = Demo.hdb1 /\
  length (scanList (queueScan 5000 (Demo.host 7) Demo.hdb1))
    = length (scanList Demo.hdb1) /\
  length (benchmarkList (queueScan 5000 (Demo.host 7) Demo.hdb1))
    = length (benchmarkList Demo.hdb1).
Proof.
  apply (queueScan_in_flight 5000 (Demo.host 7) Demo.hdb1 false).
  reflexivity.
Defined.

(** C3, counterexample: host 7 is queued and dispatched; its scan is
    cancelled, or its goroutine is refused by the thread group. No scan
    goroutine is left, and [scanThreads] is 1. *)
Lemma scanThreads_exceeds_live_workers :
  (exists s, Demo.run Demo.schedule_canceled sys_init = Some s /\
             length (sys_workers s) = 0%nat /\
             scanThreads (sys_hdb s) = 1) /\
  (exists s, Demo.run Demo.schedule_refused sys_init = Some s /\
             length (sys_workers s) = 0%nat /\
             scanThreads (sys_hdb s) = 1).
Proof.
  split; eexists; (split; [vm_compute; reflexivity|]); split; reflexivity.
Qed.

Lemma scanThreads_invariant_witness :
  match Demo.run Demo.schedule_canceled sys_init with
  | Some s =>
      scanThreads (sys_hdb s)
        = Z.of_nat (length (sys_workers s)) + Z.of_nat (sys_abandoned s) /\
      Z.of_nat (length (sys_workers s)) <= scanThreads (sys_hdb s) /\
      (sys_abandoned s = 0%nat ->
         scanThreads (sys_hdb s) = Z.of_nat (length (sys_workers s))) /\
      scanThreads (sys_hdb s) <= 100 /\
      (forall l s', Demo.exec l s = Some s' ->
         scanThreads (sys_hdb s) < scanThreads (sys_hdb s') ->
         l = LDispatch /\
         scanThreads (sys_hdb s) < 100 /\
         scanThreads (sys_hdb s') = scanThreads (sys_hdb s) + 1 /\
         exists entry,
           head (scanList (sys_hdb s)) = Some entry /\
           sys_workers s' = sys_workers s ++ [mkWorker entry Launched]) /\
      (forall l s', Demo.exec l s = Some s' ->
         (length (sys_workers s) < length (sys_workers s'))%nat ->
         l = LDispatch /\
         scanThreads (sys_hdb s) < 100 /\
         scanThreads (sys_hdb s') = scanThreads (sys_hdb s) + 1)
  | None => False
  end.
Proof.
  destruct (Demo.run Demo.schedule_canceled sys_init) as [s|] eqn:Hrun.
  - pose proof (scanThreads_invariant 0 id Demo.EqualIPNets
                  Demo.updateHostHistoricInteractions
                  Demo.IncrementSuccessfulInteractions
                  Demo.IncrementFailedInteractions Demo.updateScanHistory
                  Demo.schedule_canceled s Hrun) as (H1 & H2 & H3 & H4 & H5 & H6).
    split; [exact H1|]. split; [exact H2|]. split; [exact H3|].
    split; [exact H4|]. split; [exact H5 | exact H6].
  - vm_compute in Hrun. discriminate.
Defined.

(** C4, the failing schedule: 24 scans have filled the buffer one after the
    other; the scans of hosts 25 and 26 both pass the test of line 146 while
    it holds 24 samples. The first appends and sorts: the buffer holds 25
    samples in ascending order. The second then appends: the buffer holds
    26 samples, the error of line 72 is logged by the next scan, and the
    time limit stays at 2 minutes. *)
Theorem latency_buffer_race :
  exists s s',
    Demo.run Demo.schedule_race sys_init = Some s /\
    length (initialScanLatencies (sys_hdb s)) = 25%nat /\
    Sorted Z.le (initialScanLatencies (sys_hdb s)) /\
    Demo.run [LFeedAppend 1] s = Some s' /\
    length (initialScanLatencies (sys_hdb s')) = 26%nat /\
    initialScanLatencies (sys_hdb s') <> initialScanLatencies (sys_hdb s) /\
    scanTimeout (initialScanLatencies (sys_hdb s')) = 2 * Minute.
Proof.
  eexists. eexists.
  split; [vm_compute; reflexivity|].
  split; [reflexivity|].
  split; [apply (bool_decide_unpack _); vm_compute; exact I|].
  split; [vm_compute; reflexivity|].
  split; [reflexivity|].
  split; [discriminate | reflexivity].
Qed.

(** After a refused registration has unlocked the mutex that the dispatcher
    holds, the dispatcher's own unlock on line 203 is the fatal error. *)
Example dispatcher_unlock_after_refusal :
  Demo.run (Demo.schedule_refused ++ [LDispatchUnlock]) sys_init = None.
Proof. vm_compute. reflexivity. Qed.

(** The bounds of the table belong to the lower row: a host last seen exactly
    two days ago is scanned every hour, one nanosecond later every two
    hours; a host never seen every 30 minutes. *)
Example calculateScanInterval_bounds :
  calculateScanInterval (3600 * Second + 2 * 24 * Hour)
    (Demo.scanned_host 7 (3600 * Second)) = 1 * Hour /\
  calculateScanInterval (3600 * Second + 2 * 24 * Hour + 1)
    (Demo.scanned_host 7 (3600 * Second)) = 2 * Hour /\
  calculateScanInterval (3600 * Second + 2 * 24 * Hour) (Demo.host 7)
    = 30 * Minute.
Proof. repeat split; vm_compute; reflexivity. Qed.

(** A host without scan history goes to the scan list. *)
Example queueScan_never_scanned :
  scanList (queueScan 5000 (Demo.host 7) Demo.hdb0) = [Demo.host 7] /\
  benchmarkList (queueScan 5000 (Demo.host 7) Demo.hdb0) = [] /\
  scanMap (queueScan 5000 (Demo.host 7) Demo.hdb0) !! 7 = Some false.
Proof. repeat split; vm_compute; reflexivity. Qed.

(** ** The country selector of the web front end *)

Module CountrySelector.

(** An [<option>] element of the [<select>]: its React key, its value and its
    text. *)
Record OptionElement := mkOption {
  key : string;
  value : string;
  text : string
}.

Section Render.

(** [countryByCode], of the front end's [api] module. *)
Variable countryByCode : string -> string.

(** Lines 24-30: the children of the [<select>]; [options] is [None] when
    [props.options] is null or undefined. *)
Definition renderOptions (options : option (list string)) : list OptionElement :=
  mkOption "country-none" EmptyString EmptyString ::
  match options with
  | Some l =>
      map (fun o => mkOption ("country-" ++ o) o (countryByCode o)) l
  | None => []
  end.

Lemma renderOptions_values l :
  map value (renderOptions (Some l)) = EmptyString :: l.
Proof.
  unfold renderOptions. cbn. f_equal. rewrite map_map. cbn. apply map_id.
Qed.

Lemma renderOptions_keys l :
  map key (renderOptions (Some l))
  = "country-none"%string :: map (fun o => ("country-" ++ o)%string) l.
Proof. unfold renderOptions. cbn. f_equal. now rewrite map_map. Qed.

Lemma country_key_inj (a b : string) :
  ("country-" ++ a)%string = ("country-" ++ b)%string -> a = b.
Proof. intros H. now injection H. Qed.

(** X12: the selector offers the empty choice first, then one choice per
    option, in order, each with the option as its value (only the empty
    choice when there are no options at all); the React keys of the choices
    are pairwise distinct exactly when no option occurs twice and none of
    them is "none", whose key is that of the empty choice. *)
Theorem renderOptions_choices (l : list string) :
  renderOptions None = [mkOption "country-none" EmptyString EmptyString] /\
  map value (renderOptions (Some l)) = EmptyString :: l /\
  length (renderOptions (Some l)) = S (length l) /\
  (NoDup (map key (renderOptions (Some l))) <->
   NoDup l /\ "none"%string ∉ l).
Proof.
  split; [reflexivity|]. split; [apply renderOptions_values|]. split.
  - unfold renderOptions. cbn. now rewrite length_map.
  - rewrite renderOptions_keys, NoDup_cons.
    assert (Hnd : NoDup (map (fun o => ("country-" ++ o)%string) l) <-> NoDup l).
    { split.
      - apply (NoDup_fmap_1 (fun o => ("country-" ++ o)%string)).
      - apply (NoDup_fmap_2_strong (fun o => ("country-" ++ o)%string)).
        intros a b _ _. apply country_key_inj. }
    assert (Hin : "country-none"%string ∈ map (fun o => ("country-" ++ o)%string) l
                  <-> "none"%string ∈ l).
    { change (map (fun o => ("country-" ++ o)%string) l)
        with ((fun o => ("country-" ++ o)%string) <$> l).
      rewrite list_elem_of_fmap. split.
      - intros (o & Ho & Hl). apply (country_key_inj "none" o) in Ho. now subst.
      - intros Hl. exists "none"%string. auto. }
    rewrite Hnd, Hin. tauto.
Qed.

End Render.

End CountrySelector.

(** ** Worked examples for the rest of the scanner *)

Module Demo2.

Definition run_worker :=
  run_worker 0 id Demo.EqualIPNets Demo.updateHostHistoricInteractions
    Demo.IncrementSuccessfulInteractions Demo.IncrementFailedInteractions
    Demo.updateScanHistory.

(** Host 7 has been taken from the scan list; its goroutine has not yet
    registered. *)
Definition s_launched : @Sys string Z Z :=
  mkSys Demo.hdb1 false false false [mkWorker (Demo.host 7) Launched] 0 [].

(** Three hosts wait for a scan while 99 scans are running. *)
Definition hdb_busy : @HostDB string Z Z :=
  mkHostDB false [] [Demo.host 1; Demo.host 2; Demo.host 3] []
    {[ 1 := false; 2 := false; 3 := false ]} 99.

End Demo2.

Lemma Demo_keeps_key :
  keeps_key Demo.updateHostHistoricInteractions /\
  keeps_key Demo.IncrementSuccessfulInteractions /\
  keeps_key Demo.IncrementFailedInteractions /\
  (forall h sc, hPublicKey (fst (Demo.updateScanHistory h sc)) = hPublicKey h).
Proof. repeat split. Qed.

Lemma queueScan_once_per_key_witness :
  is_Some (scanMap (queueScan 5000 (Demo.host 7) Demo.hdb0) !! 7) /\
  queueScan 6000 (Demo.scanned_host 7 100) (queueScan 5000 (Demo.host 7) Demo.hdb0)
  = queueScan 5000 (Demo.host 7) Demo.hdb0.
Proof.
  apply (queueScan_once_per_key 5000 6000 (Demo.host 7)
           (Demo.scanned_host 7 100) Demo.hdb0).
  reflexivity.
Defined.

Lemma feedAll_first_25_witness :
  let outs := [(true, 30); (false, 99); (true, 10)] in
  let buf := initialScanLatencies (feedAll outs Demo.hdb0) in
  buf = tracked (successes outs) /\
  ((length (successes outs) < 25)%nat -> buf = successes outs) /\
  ((25 <= length (successes outs))%nat ->
     buf = sort_Slice (take 25 (successes outs)) /\
     length buf = 25%nat /\ Sorted Z.le buf /\
     forall more, initialScanLatencies (feedAll (outs ++ more) Demo.hdb0) = buf) /\
  (length buf <= 25)%nat.
Proof.
  apply (feedAll_first_25 [(true, 30); (false, 99); (true, 10)] Demo.hdb0).
  reflexivity.
Defined.


(** With 99 scans running, one of three waiting hosts is started. *)
Lemma scanDrain_takes_what_fits_witness :
  let '(hdb', launched) := scanDrain Demo2.hdb_busy in
  launched = take 1 (scanList Demo2.hdb_busy) /\
  scanList hdb' = drop 1 (scanList Demo2.hdb_busy) /\
  scanThreads hdb' = scanThreads Demo2.hdb_busy + Z.of_nat (length launched) /\
  scanThreads hdb' <= 100 /\
  (scanList hdb' = [] \/ scanThreads hdb' = 100) /\
  scanMap hdb' = scanMap Demo2.hdb_busy /\
  benchmarkList hdb' = benchmarkList Demo2.hdb_busy /\
  benchmarking hdb' = benchmarking Demo2.hdb_busy /\
  initialScanLatencies hdb' = initialScanLatencies Demo2.hdb_busy.
Proof.
  apply (scanDrain_takes_what_fits Demo2.hdb_busy). cbn. lia.
Defined.

Lemma no_host_in_flight_twice_witness :
  match Demo.run Demo.schedule_race sys_init with
  | Some s =>
      NoDup (in_flight_keys (scanList (sys_hdb s)) (benchmarkList (sys_hdb s))
               (sys_workers s)) /\
      (forall h : Demo.Entry, h ∈ scanList (sys_hdb s) ->
         scanMap (sys_hdb s) !! hPublicKey h = Some false) /\
      (forall h : Demo.Entry, h ∈ benchmarkList (sys_hdb s) ->
         scanMap (sys_hdb s) !! hPublicKey h = Some true) /\
      (forall w : Worker, w ∈ sys_workers s ->
         scanMap (sys_hdb s) !! hPublicKey (w_entry w) = Some false)
  | None => False
  end.
Proof.
  destruct (Demo.run Demo.schedule_race sys_init) as [s|] eqn:Hrun.
  - destruct Demo_keeps_key as (Hu & Hs & Hf & Hr).
    exact (no_host_in_flight_twice 0 id Demo.EqualIPNets
             Demo.updateHostHistoricInteractions
             Demo.IncrementSuccessfulInteractions
             Demo.IncrementFailedInteractions Demo.updateScanHistory
             Demo.schedule_race s Hu Hs Hf Hr Hrun).
  - vm_compute in Hrun. discriminate.
Defined.

Lemma dispatcher_unlock_succeeds_witness :
  match Demo.run [LQueueScan 5000 (Demo.host 7); LDispatch] sys_init with
  | Some s => sys_mu s = true /\ is_Some (Demo.exec LDispatchUnlock s)
  | None => False
  end.
Proof.
  destruct (Demo.run [LQueueScan 5000 (Demo.host 7); LDispatch] sys_init)
    as [s|] eqn:Hrun.
  - pose proof (dispatcher_unlock_succeeds 0 id Demo.EqualIPNets
                  Demo.updateHostHistoricInteractions
                  Demo.IncrementSuccessfulInteractions
                  Demo.IncrementFailedInteractions Demo.updateScanHistory
                  [LQueueScan 5000 (Demo.host 7); LDispatch] s Hrun) as H.
    vm_compute in Hrun. injection Hrun as <-. apply H; reflexivity.
  - vm_compute in Hrun. discriminate.
Defined.

Lemma scan_cycle_round_trip_witness :
  let hdb1 := queueScan 5000 (Demo.host 7) Demo.hdb0 in
  let hdb2 := fst (scanDrain hdb1) in
  let hdb3 := fst (fst (Demo.scanHost (Demo.env_ok (120 * Millisecond)) hdb2
                          (Demo.host 7))) in
  snd (scanDrain hdb1) = [Demo.host 7] /\
  scanMap hdb2 !! hPublicKey (Demo.host 7) = Some false /\
  scanThreads hdb2 = scanThreads Demo.hdb0 + 1 /\
  scanMap hdb3 = scanMap Demo.hdb0 /\
  scanMap hdb3 !! hPublicKey (Demo.host 7) = None /\
  scanThreads hdb3 = scanThreads Demo.hdb0 /\
  scanList hdb3 = [] /\
  benchmarkList hdb3 = benchmarkList Demo.hdb0 /\
  benchmarking hdb3 = benchmarking Demo.hdb0.
Proof.
  destruct Demo_keeps_key as (Hu & Hs & Hf & Hr).
  apply (scan_cycle_round_trip 0 id Demo.EqualIPNets
           Demo.updateHostHistoricInteractions
           Demo.IncrementSuccessfulInteractions
           Demo.IncrementFailedInteractions Demo.updateScanHistory
           5000 (Demo.env_ok (120 * Millisecond)) Demo.hdb0 (Demo.host 7)
           Hu Hs Hf Hr); try reflexivity.
  cbn. lia.
Defined.

Lemma run_worker_is_scanHost_witness :
  let '(hdb', _, calls) :=
    Demo.scanHost (Demo.env_ok (120 * Millisecond)) (sys_hdb Demo2.s_launched)
      (Demo.host 7) in
  Demo2.run_worker 6 0 (Demo.env_ok (120 * Millisecond)) Demo2.s_launched =
  Some (mkSys hdb' false false (sys_dispatching Demo2.s_launched)
          (delete 0%nat (sys_workers Demo2.s_launched))
          (if isCanceled (at_err (Demo.scanAttempt (Demo.env_ok (120 * Millisecond))
                                    (initialScanLatencies (sys_hdb Demo2.s_launched))
                                    (Demo.host 7)))
           then S (sys_abandoned Demo2.s_launched)
           else sys_abandoned Demo2.s_launched)
          (sys_calls Demo2.s_launched ++ calls)).
Proof.
  apply (run_worker_is_scanHost 0 id Demo.EqualIPNets
           Demo.updateHostHistoricInteractions
           Demo.IncrementSuccessfulInteractions
           Demo.IncrementFailedInteractions Demo.updateScanHistory
           0%nat (Demo.env_ok (120 * Millisecond)) Demo2.s_launched (Demo.host 7));
    reflexivity.
Defined.

(** A host scanned ten minutes ago goes to the benchmark list. *)
Lemma queueScan_by_age_witness :
  let host := Demo.scanned_host 7 (3600 * Second) in
  let now := 3600 * Second + 10 * Minute in
  (now - 3600 * Second < 30 * Minute ->
     benchmarkList (queueScan now host Demo.hdb0) = benchmarkList Demo.hdb0 ++ [host] /\
     scanList (queueScan now host Demo.hdb0) = scanList Demo.hdb0 /\
     scanMap (queueScan now host Demo.hdb0) !! hPublicKey host = Some true) /\
  (24 * Hour <= now - 3600 * Second ->
     scanList (queueScan now host Demo.hdb0) = scanList Demo.hdb0 ++ [host] /\
     benchmarkList (queueScan now host Demo.hdb0) = benchmarkList Demo.hdb0 /\
     scanMap (queueScan now host Demo.hdb0) !! hPublicKey host = Some false).
Proof.
  intros host now.
  apply (queueScan_by_age now host Demo.hdb0
           (mkHostScan (3600 * Second) true (120 * Millisecond) EmptyString
              "host.example:9983"%string 1)); reflexivity.
Defined.

(** ** The unguarded buffer read by another scan, and the refused goroutine *)

Module Demo3.

(** 24 scans one after the other, of latencies 10 ms, ..., 240 ms; the scan
    of host 25, of latency 1 ms, has appended its sample (line 147) and not
    yet sorted (lines 149-153); host 26 has been dispatched meanwhile and
    its goroutine has registered. *)
Definition schedule_unsorted : list Label :=
  flat_map (fun k => Demo.scan_alone (Z.of_nat k)) (seq 1 24) ++
  [LQueueScan 5000 (Demo.host 25); LDispatch; LDispatchUnlock; LRegister 0;
   LAttempt 0 (Demo.env_ok (1 * Millisecond)); LFeedCheck 0; LFeedAppend 0;
   LQueueScan 5000 (Demo.host 26); LDispatch; LDispatchUnlock; LRegister 1].

(** Host 7 is queued and dispatched, the dispatcher has unlocked, and the
    thread group is stopped before the goroutine registers. *)
Definition schedule_stopped : list Label :=
  [LQueueScan 5000 (Demo.host 7); LDispatch; LDispatchUnlock; LStop].

(** The state that [schedule_stopped] leads to. *)
Definition s_stopped : @Sys string Z Z :=
  mkSys Demo.hdb1 false true false [mkWorker (Demo.host 7) Launched] 0 [].

Definition scanWorker :=
  scanWorker 0 id Demo.EqualIPNets Demo.updateHostHistoricInteractions
    Demo.IncrementSuccessfulInteractions Demo.IncrementFailedInteractions
    Demo.updateScanHistory.

Definition benchWorker := benchWorker Demo.benchmarkHost.

End Demo3.

(** C5, the failing schedule: 24 scans have filled the buffer with 10 ms,
    ..., 240 ms; the scan of host 25 appends its 1 ms as the 25th sample and
    has not yet sorted. The mutex is free, and the scan of host 26 reads the
    buffer (lines 70-81): it holds 25 samples, of median 120 ms, so five
    times the median is 600 ms; line 75 takes the element in the middle of
    the unsorted buffer, 130 ms, and the handshake of host 26, the second
    call of its scan, is given 650 ms (on top of the 4 minutes of line 84). *)
Theorem scan_reads_unsorted_buffer :
  exists s s',
    Demo.run Demo3.schedule_unsorted sys_init = Some s /\
    sys_mu s = false /\
    length (initialScanLatencies (sys_hdb s)) = 25%nat /\
    ~ Sorted Z.le (initialScanLatencies (sys_hdb s)) /\
    median (initialScanLatencies (sys_hdb s)) = 120 * Millisecond /\
    Z.min (5 * median (initialScanLatencies (sys_hdb s))) (2 * Minute)
      = 600 * Millisecond /\
    scanTimeout (initialScanLatencies (sys_hdb s)) = 650 * Millisecond /\
    Demo.exec (LAttempt 1 (Demo.env_ok (300 * Millisecond))) s = Some s' /\
    sys_calls s' !! (length (sys_calls s) + 1)%nat =
      Some (CallWithTransportV2 (4 * Minute + 650 * Millisecond)
              "host.example:9982" 26).
Proof.
  eexists. eexists.
  split; [vm_compute; reflexivity|].
  split; [reflexivity|].
  split; [reflexivity|].
  split.
  { intros Hs. apply (bool_decide_pack _) in Hs. vm_compute in Hs. exact Hs. }
  split; [vm_compute; reflexivity|].
  split; [vm_compute; reflexivity|].
  split; [vm_compute; reflexivity|].
  split; vm_compute; reflexivity.
Qed.

(** C9, the failing input: the thread group is stopped between the launch of
    the goroutine of host 7 (line 191) and its registration (line 192).
    When the dispatcher has already unlocked (line 203), the goroutine's
    unlock on line 193 finds the mutex unlocked: it is the fatal run-time
    error, the goroutine does not return. When the dispatcher still holds
    the mutex, the goroutine releases the dispatcher's lock and returns, and
    the dispatcher's own unlock on line 203 is the fatal error. The
    benchmark goroutine (line 215) does the same. *)
Theorem refused_worker_fatal_unlock :
  (Demo.run Demo3.schedule_stopped sys_init = Some Demo3.s_stopped /\
   tg_Add Demo3.s_stopped = Some "ThreadGroup already stopped"%string /\
   Demo.exec (LRegister 0) Demo3.s_stopped = None /\
   Demo3.scanWorker (tg_Add Demo3.s_stopped) (Demo.env_ok (120 * Millisecond))
     (Demo.host 7) Demo3.s_stopped = None /\
   Demo3.benchWorker (tg_Add Demo3.s_stopped) (Demo.host 7) Demo3.s_stopped
     = None) /\
  (exists s,
     Demo.run Demo.schedule_refused sys_init = Some s /\
     sys_dispatching s = true /\ sys_mu s = false /\ sys_workers s = [] /\
     Demo.exec LDispatchUnlock s = None).
Proof.
  split.
  - split; [vm_compute; reflexivity|].
    split; [reflexivity|].
    split; [vm_compute; reflexivity|].
    split; vm_compute; reflexivity.
  - eexists.
    split; [vm_compute; reflexivity|].
    split; [reflexivity|].
    split; [reflexivity|].
    split; [reflexivity|].
    vm_compute. reflexivity.
Qed.
